(** * Scarlett backend: session tracker and signalling relay

    A shallow embedding of [Backend/server.js] and
    [Backend/middleware/authMiddleware.js].

    - JavaScript values are an inductive type; objects are property
      lists in property order.
    - The two module-level objects [userVisitTimes] and [pageVisitLogged]
      are finite maps keyed by the numeric user id carried by the token.
    - A route handler is a function from the server state to a new state
      and an [Outcome]: either the response it sends at once, or the
      INSERT it hands to [connection.query] together with the callback
      that will produce the response.
    - [new Date()] is an input of the handler (milliseconds since the
      epoch, in [Z]).
    - What the program takes from its runtime and libraries
      ([JSON.stringify], [jwt.verify], the local time zone) is gathered in
      the class [Runtime]. *)

From Stdlib Require Import ZArith String Ascii List DecimalString QArith.
From stdpp Require Import base gmap strings list fin_maps fin_sets.

Set Warnings "-register-all".
Close Scope Q_scope.
Open Scope Z_scope.
Open Scope string_scope.

(** ** JavaScript values *)

Module JS.

(** Values that occur in request bodies and in the objects the handlers
    build. A number read by [JSON.parse] is a finite double, hence a
    rational. [VDate] carries the time value of a [Date] object. *)
Inductive value : Type :=
| VUndefined
| VNull
| VBool (b : bool)
| VNum (q : Q)
| VStr (s : string)
| VDate (ms : Z)
| VArr (xs : list value)
| VObj (ps : list (string * value)).

(** Property name of an array index: its decimal numeral. *)
Definition index_key (i : nat) : string :=
  NilEmpty.string_of_uint (Nat.to_uint i).

(** Own enumerable properties, as the object spread [{...v}] copies them:
    the properties of an object, the indexed elements of an array, the
    indexed characters of a string, nothing for other values. *)
Definition own_props (v : value) : list (string * value) :=
  match v with
  | VObj ps => ps
  | VArr xs => imap (fun i x => (index_key i, x)) xs
  | VStr s =>
      imap (fun i c => (index_key i, VStr (String c EmptyString)))
           (list_ascii_of_string s)
  | _ => []
  end.

(** [o[k]] on a property list. *)
Fixpoint obj_get (k : string) (ps : list (string * value)) : option value :=
  match ps with
  | [] => None
  | (k', v) :: ps' => if String.eqb k' k then Some v else obj_get k ps'
  end.

(** Defining property [k] on an object under construction: an existing
    property keeps its place and takes the new value, a new one goes
    last. *)
Fixpoint obj_set (k : string) (v : value) (ps : list (string * value))
  : list (string * value) :=
  match ps with
  | [] => [(k, v)]
  | (k', v') :: ps' =>
      if String.eqb k' k then (k', v) :: ps' else (k', v') :: obj_set k v ps'
  end.

(** [s.split(sep)] for a one-character separator. *)
Fixpoint split (sep : ascii) (s : string) : list string :=
  match s with
  | EmptyString => [EmptyString]
  | String c s' =>
      if Ascii.eqb c sep then EmptyString :: split sep s'
      else match split sep s' with
           | [] => [String c EmptyString]
           | w :: ws => String c w :: ws
           end
  end.

End JS.
Import JS.

(** ** Runtime and library collaborators *)

(** The payload of a verified token: [jwt.sign({ id: user.id }, ...)] in
    the login controller, where [user.id] is the numeric key of the
    [users] row. *)
Record User := { id : Z }.

(** The error a storage callback receives. *)
Definition DbError := string.

Class Runtime := {
  (** [JSON.stringify] *)
  JSON_stringify : value -> string;
  (** [jwt.verify(token, process.env.JWT_SECRET, cb)]: [None] when the
      callback gets an error (bad signature, expired, malformed), the
      decoded payload otherwise. *)
  jwt_verify : string -> option User;
  (** Offset of local time from UTC at a given instant, in milliseconds. *)
  LocalTZA : Z -> Z;
  (** Whether the runtime's en-US 24-hour clock prints midnight as hour
      24 (hour cycle h24) or as hour 00 (h23). *)
  midnight_is_24 : bool
}.

(** ** Requests, responses and the storage call *)

(** [res.status(code).send(body)] and [res.sendStatus(code)]. *)
Inductive Response : Type :=
| Send (status : Z) (body : string)
| SendStatus (status : Z).

(** The bound parameters of
    [INSERT INTO activities (user_id, event_type, details) VALUES (?, ?, ?)]:
    one activity record handed to the storage connection. *)
Record Insert := {
  user_id : Z;
  event_type : value;
  details : string
}.

(** What a handler has done when it returns to the event loop: it has
    answered, or it has called [connection.query] with a callback. The
    callback only sends the response. *)
Inductive Outcome : Type :=
| Respond (r : Response)
| Query (q : Insert) (cb : option DbError -> Response).

(** The three monitoring routes; the generic one carries the [event] and
    [details] fields of the parsed body ([VUndefined] when absent). *)
Inductive Route : Type :=
| PageVisit
| PageLeave
| Activity (event details : value).

Record Request := {
  authorization : option string;   (* req.headers['authorization'] *)
  route : Route
}.

(** ** Time-of-day formatting *)

Definition digit (n : Z) : ascii := ascii_of_nat (48 + Z.to_nat n).

Definition two_digit (n : Z) : string :=
  String (digit (n / 10)) (String (digit (n mod 10)) EmptyString).

Definition is_digit (c : ascii) : bool :=
  let n := nat_of_ascii c in (48 <=? n)%nat && (n <=? 57)%nat.

(** The value of a decimal digit character. *)
Definition digit_value (c : ascii) : option Z :=
  if is_digit c then Some (Z.of_nat (nat_of_ascii c) - 48) else None.

(** Reading a stamp back: the hour, minute and second written in a
    string [dd:dd:dd]; [None] for any other string (a longer one, one
    with a date or a day period, one with other separators). *)
Definition read_HHMMSS (s : string) : option (Z * Z * Z) :=
  match list_ascii_of_string s with
  | [h1; h2; c1; m1; m2; c2; s1; s2] =>
      if Ascii.eqb c1 ":" && Ascii.eqb c2 ":" then
        match digit_value h1, digit_value h2, digit_value m1,
              digit_value m2, digit_value s1, digit_value s2 with
        | Some a, Some b, Some c, Some d, Some e, Some f =>
            Some (10 * a + b, 10 * c + d, 10 * e + f)
        | _, _, _, _, _, _ => None
        end
      else None
  | _ => None
  end.

(** A time of day on a 24-hour clock and nothing else: the string reads
    back as an hour up to 24 (the hour after midnight is written 00 or
    24, depending on the runtime), a minute and a second below 60. *)
Definition is_HHMMSS (s : string) : bool :=
  match read_HHMMSS s with
  | Some (hour, minute, second) =>
      Z.leb 0 hour && Z.leb hour 24 && Z.leb 0 minute && Z.leb minute 59
      && Z.leb 0 second && Z.leb second 59
  | None => false
  end.

(** ** Server state *)

(** The object stored per user in [userVisitTimes]. Both maps are plain
    objects indexed by [req.user.id]; the property name of a numeric id
    is its numeral, which no inherited property of a plain object has, so
    a read finds what was stored under that id or [undefined]. *)
Record VisitEntry := { visitTime : Z }.

Record Server := {
  userVisitTimes : gmap Z VisitEntry;
  pageVisitLogged : gmap Z bool
}.

Definition init : Server :=
  {| userVisitTimes := ∅; pageVisitLogged := ∅ |}.

(** Truthiness of [pageVisitLogged[userId]]; a missing property reads as
    [undefined]. *)
Definition truthy (o : option bool) : bool :=
  match o with
  | Some b => b
  | None => false
  end.

(** ** Authentication middleware *)

(** Result of a middleware: it answered, or it called [next()] after
    setting [req.user]. *)
Inductive Auth : Type :=
| Rejected (r : Response)
| Next (user : User).

(** [authHeader && authHeader.split(' ')[1]], with [None] for
    [undefined]. An empty header string is falsy and is itself the value
    of the conjunction. *)
Definition token_of (authHeader : option string) : option string :=
  match authHeader with
  | None => None
  | Some EmptyString => Some EmptyString
  | Some h => split " "%char h !! 1%nat
  end.

Section Handlers.
Context `{Runtime}.

Definition authenticateToken (req : Request) : Auth :=
  match token_of (authorization req) with
  | None => Rejected (SendStatus 401)
  | Some token =>
      match jwt_verify token with
      | None => Rejected (SendStatus 403)
      | Some user => Next user
      end
  end.

(** ** The time-of-day stamp *)

(** [new Date().toLocaleTimeString('en-US', { hour12: false })]: the
    local hour, minute and second of the instant, two digits each,
    separated by colons. The fields are ECMAScript's [HourFromTime],
    [MinFromTime] and [SecFromTime] of the local time value. *)
Definition toLocaleTimeString (t : Z) : string :=
  let local := t + LocalTZA t in
  let hour := (local / 3600000) mod 24 in
  let hour := if midnight_is_24 && Z.eqb hour 0 then 24 else hour in
  let minute := (local / 60000) mod 60 in
  let second := (local / 1000) mod 60 in
  two_digit hour +:+ ":" +:+ two_digit minute +:+ ":" +:+ two_digit second.

(** ** Session tracker handlers *)

(** POST /api/monitoring/page-visit *)
Definition page_visit (user : User) (now : Z) (st : Server)
  : Server * Outcome :=
  let userId := id user in
  let timestamp := now in
  let event := VStr "Page Visit" in
  let details :=
    VObj [("action", VStr "Page Visit"); ("timestamp", VDate timestamp)] in
  if negb (truthy (pageVisitLogged st !! userId)) then
    ({| userVisitTimes :=
          <[userId := {| visitTime := timestamp |}]> (userVisitTimes st);
        pageVisitLogged := <[userId := true]> (pageVisitLogged st) |},
     Query {| user_id := userId; event_type := event;
              details := JSON_stringify details |}
           (fun err =>
              match err with
              | Some _ => Send 500 "Internal Server Error"
              | None => Send 200 "Page visit recorded"
              end))
  else (st, Respond (Send 200 "Page visit already recorded")).

(** POST /api/monitoring/page-leave. A stored [Date] is an object and so
    always truthy: the conditional tests whether an entry is stored.
    [Math.floor(ms / 1000)] is the floored quotient [Z.div]: time values
    are integers below 2^53, their difference is exact, and for a
    difference below 2^42 seconds the double quotient is nearer to the
    true one than the true one is to the next integer. *)
Definition page_leave (user : User) (now : Z) (st : Server)
  : Server * Outcome :=
  let userId := id user in
  let timestamp := now in
  let event := VStr "Page Leave" in
  let timeSpent :=
    match userVisitTimes st !! userId with
    | Some e => (timestamp - visitTime e) / 1000
    | None => 0
    end in
  let st' := {| userVisitTimes := delete userId (userVisitTimes st);
                pageVisitLogged := delete userId (pageVisitLogged st) |} in
  let details :=
    VObj [("action", VStr "Page Leave"); ("timestamp", VDate timestamp);
          ("timeSpent", VNum (inject_Z timeSpent))] in
  (st',
   Query {| user_id := userId; event_type := event;
            details := JSON_stringify details |}
         (fun err =>
            match err with
            | Some _ => Send 500 "Internal Server Error"
            | None => Send 200 "Page leave recorded"
            end)).

(** POST /api/monitoring/activity. The handler names neither
    [userVisitTimes] nor [pageVisitLogged]. *)
Definition activity (user : User) (event details : value) (now : Z)
    (st : Server) : Server * Outcome :=
  let userId := id user in
  let timestamp := toLocaleTimeString now in
  let updatedDetails :=
    VObj (obj_set "timestamp" (VStr timestamp) (own_props details)) in
  (st,
   Query {| user_id := userId; event_type := event;
            details := JSON_stringify updatedDetails |}
         (fun err =>
            match err with
            | Some _ => Send 500 "Internal Server Error"
            | None => Send 200 "Activity data received"
            end)).

(** [app.use('/api/monitoring', authenticateToken)] runs before the
    route handlers; a handler runs only if the middleware calls
    [next()]. *)
Definition handle (req : Request) (now : Z) (st : Server)
  : Server * Outcome :=
  match authenticateToken req with
  | Rejected r => (st, Respond r)
  | Next user =>
      match route req with
      | PageVisit => page_visit user now st
      | PageLeave => page_leave user now st
      | Activity event details => activity user event details now st
      end
  end.

(** ** One request at a time *)

(** The inserts a handler handed to the storage connection. *)
Definition emitted (o : Outcome) : list Insert :=
  match o with
  | Respond _ => []
  | Query q _ => [q]
  end.

(** The response the caller gets, given the result the storage
    connection passes to the callback. *)
Definition response (o : Outcome) (db : option DbError) : Response :=
  match o with
  | Respond r => r
  | Query _ cb => cb db
  end.

(** ** The event loop *)

(** Node runs each handler invocation and each callback to completion
    before it takes the next one. A run of the server is a sequence of
    such tasks: a request reaches its handler, or the storage connection
    completes a query in flight and its callback runs. *)
Inductive Event : Type :=
| Arrive (rid : nat) (req : Request) (now : Z)
| Complete (rid : nat) (err : option DbError).

Record InFlight := {
  for_request : nat;
  statement : Insert;
  callback : option DbError -> Response
}.

Record Loop := {
  server : Server;
  in_flight : list InFlight;
  sink : list Insert;               (* every insert issued, oldest first *)
  stored : list Insert;             (* the inserts the storage accepted *)
  replies : list (nat * Response)
}.

Definition boot : Loop :=
  {| server := init; in_flight := []; sink := []; stored := [];
     replies := [] |}.

Fixpoint take_flight (rid : nat) (fs : list InFlight)
  : option (InFlight * list InFlight) :=
  match fs with
  | [] => None
  | f :: fs' =>
      if Nat.eqb (for_request f) rid then Some (f, fs')
      else match take_flight rid fs' with
           | Some (g, rest) => Some (g, f :: rest)
           | None => None
           end
  end.

Definition step (L : Loop) (ev : Event) : Loop :=
  match ev with
  | Arrive rid req now =>
      let '(st', o) := handle req now (server L) in
      match o with
      | Respond r =>
          {| server := st'; in_flight := in_flight L; sink := sink L;
             stored := stored L; replies := replies L ++ [(rid, r)] |}
      | Query q cb =>
          {| server := st';
             in_flight := in_flight L ++
               [{| for_request := rid; statement := q; callback := cb |}];
             sink := sink L ++ [q]; stored := stored L;
             replies := replies L |}
      end
  | Complete rid err =>
      match take_flight rid (in_flight L) with
      | None => L
      | Some (f, rest) =>
          {| server := server L; in_flight := rest; sink := sink L;
             stored := match err with
                       | None => stored L ++ [statement f]
                       | Some _ => stored L
                       end;
             replies := replies L ++ [(rid, callback f err)] |}
      end
  end.

Definition run (evs : list Event) (L : Loop) : Loop := foldl step L evs.

(** States the tracker can be in after any sequence of the three
    operations. *)
Inductive reachable : Server -> Prop :=
| reach_init : reachable init
| reach_visit user now st :
    reachable st -> reachable (page_visit user now st).1
| reach_leave user now st :
    reachable st -> reachable (page_leave user now st).1
| reach_activity user event details now st :
    reachable st -> reachable (activity user event details now st).1.

End Handlers.

(** ** Signalling relay *)

Module Relay.


Record Delivery := {
  recipient : string;
  event : string;
  payload : value
}.


Definition on_disconnect (sid : string) (connected : gset string)
  : gset string :=
  connected ∖ {[ sid ]}.

(** [socket.broadcast.emit(ev, arg)]: socket.io sends the event to every
    socket of the namespace except the emitting one. *)
Definition broadcast_emit (connected : gset string) (sender : string)
    (ev : string) (arg : value) : list Delivery :=
  (fun r => {| recipient := r; event := ev; payload := arg |})
    <$> elements (connected ∖ {[ sender ]}).

(** The listeners attached to each socket: three event names are
    re-emitted, any other event has no listener. *)
Definition on_message (connected : gset string) (sender : string)
    (ev : string) (arg : value) : list Delivery :=
  if String.eqb ev "offer" then broadcast_emit connected sender "offer" arg
  else if String.eqb ev "answer" then
    broadcast_emit connected sender "answer" arg
  else if String.eqb ev "ice-candidate" then
    broadcast_emit connected sender "ice-candidate" arg
  else [].

(** The three kinds of signalling message and their event names. *)
Inductive Kind : Type := Offer | Answer | IceCandidate.

Definition event_name (k : Kind) : string :=
  match k with
  | Offer => "offer"
  | Answer => "answer"
  | IceCandidate => "ice-candidate"
  end.

End Relay.

(** ** A runtime for the examples *)

(** A stand-in serialiser (the results below hold for any), two known
    tokens, a server clock on UTC. *)
Module Sample.

Definition show_Z (n : Z) : string :=
  NilEmpty.string_of_int (Z.to_int n).

Definition quote (s : string) : string := "'" +:+ s +:+ "'".

Fixpoint join (sep : string) (ws : list string) : string :=
  match ws with
  | [] => EmptyString
  | [w] => w
  | w :: ws' => w +:+ sep +:+ join sep ws'
  end.

Fixpoint show (v : value) : string :=
  match v with
  | VUndefined => "undefined"
  | VNull => "null"
  | VBool b => if b then "true" else "false"
  | VNum q => show_Z (Qnum q) +:+ "/" +:+ show_Z (Zpos (Qden q))
  | VStr s => quote s
  | VDate ms => "@" +:+ show_Z ms
  | VArr xs => "[" +:+ join "," (map show xs) +:+ "]"
  | VObj ps =>
      "{" +:+ join "," (map (fun p => quote (fst p) +:+ ":" +:+ show (snd p)) ps)
          +:+ "}"
  end.

Definition verify (token : string) : option User :=
  if String.eqb token "token-of-7" then Some {| id := 7 |}
  else if String.eqb token "token-of-9" then Some {| id := 9 |}
  else None.

#[export] Instance runtime : Runtime :=
  {| JSON_stringify := show; jwt_verify := verify;
     LocalTZA := fun _ => 0; midnight_is_24 := true |}.

Definition visit_by (token : string) : Request :=
  {| authorization := Some ("Bearer " +:+ token); route := PageVisit |}.

End Sample.

(** * Properties *)

(** ** Property lists and string splitting *)

Lemma obj_get_set_same k v ps : obj_get k (obj_set k v ps) = Some v.
Proof.
  induction ps as [|[k' v'] ps IH]; simpl.
  - by rewrite String.eqb_refl.
  - destruct (String.eqb k' k) eqn:E; simpl; rewrite E; auto.
Qed.


(** With distinct property names, the only value under [k] after
    [obj_set k v] is [v]. *)
Lemma obj_set_unique k v w ps :
  NoDup ps.*1 → (k, w) ∈ obj_set k v ps → w = v.
Proof.
  induction ps as [|[k0 v0] ps IH]; simpl; intros Hnd Hin.
  - apply list_elem_of_singleton in Hin. congruence.
  - apply NoDup_cons in Hnd as [Hk0 Hnd].
    destruct (String.eqb k0 k) eqn:E.
    + apply String.eqb_eq in E. subst k0.
      apply elem_of_cons in Hin as [Hin|Hin]; [congruence|].
      exfalso. apply Hk0. apply list_elem_of_fmap. by exists (k, w).
    + apply elem_of_cons in Hin as [Hin|Hin]; [|by apply IH].
      apply String.eqb_neq in E. congruence.
Qed.

(** ** The records of the lifecycle events *)

Section Tracker.
Context `{Runtime}.

(** The activity record of a page visit by [userId] at [now]. *)
Definition page_visit_record (userId now : Z) : Insert :=
  {| user_id := userId; event_type := VStr "Page Visit";
     details := JSON_stringify
       (VObj [("action", VStr "Page Visit"); ("timestamp", VDate now)]) |}.

(** The activity record of a page leave with [n] seconds on the page. *)
Definition page_leave_record (userId now n : Z) : Insert :=
  {| user_id := userId; event_type := VStr "Page Leave";
     details := JSON_stringify
       (VObj [("action", VStr "Page Leave"); ("timestamp", VDate now);
              ("timeSpent", VNum (inject_Z n))]) |}.

(** A session is open for a user when the visit guard is set. *)
Definition session_open (st : Server) (userId : Z) : bool :=
  truthy (pageVisitLogged st !! userId).

(** ** The two paths of a page visit *)

Lemma page_visit_fresh user now st :
  session_open st (id user) = false →
  page_visit user now st =
    ({| userVisitTimes :=
          <[id user := {| visitTime := now |}]> (userVisitTimes st);
        pageVisitLogged := <[id user := true]> (pageVisitLogged st) |},
     Query (page_visit_record (id user) now)
           (fun err =>
              match err with
              | Some _ => Send 500 "Internal Server Error"
              | None => Send 200 "Page visit recorded"
              end)).
Proof.
  unfold session_open, page_visit. intros ->. reflexivity.
Qed.

Lemma page_visit_again user now st :
  session_open st (id user) = true →
  page_visit user now st =
    (st, Respond (Send 200 "Page visit already recorded")).
Proof.
  unfold session_open, page_visit. intros ->. reflexivity.
Qed.

Lemma session_open_after_visit user now st :
  session_open (page_visit user now st).1 (id user) = true.
Proof.
  destruct (session_open st (id user)) eqn:E.
  - by rewrite page_visit_again.
  - rewrite page_visit_fresh by done. unfold session_open. simpl.
    by rewrite lookup_insert_eq.
Qed.

Lemma session_closed_after_leave user now st :
  session_open (page_leave user now st).1 (id user) = false.
Proof.
  unfold session_open, page_leave. simpl. by rewrite lookup_delete_eq.
Qed.

(** C1. Two page visits of one user in a row, starting with no open
    session: the first opens the session at its own time and hands one
    "Page Visit" record to storage; the second hands nothing to storage,
    leaves the state (and so the stored visit time) as it is, and answers
    200 whatever storage would have said. *)
Theorem visit_twice_one_record (user : User) (t1 t2 : Z) (st : Server) :
  session_open st (id user) = false →
  let r1 := page_visit user t1 st in
  let r2 := page_visit user t2 r1.1 in
  (emitted r1.2 ++ emitted r2.2)%list = [page_visit_record (id user) t1]
  ∧ emitted r2.2 = []
  ∧ r2.1 = r1.1
  ∧ userVisitTimes r2.1 !! id user = Some {| visitTime := t1 |}
  ∧ session_open r2.1 (id user) = true
  ∧ ∀ db, response r2.2 db = Send 200 "Page visit already recorded".
Proof.
  intros Hclosed r1 r2.
  assert (Hopen : session_open r1.1 (id user) = true)
    by apply session_open_after_visit.
  subst r2. rewrite (page_visit_again _ _ _ Hopen). simpl.
  subst r1. rewrite (page_visit_fresh _ _ _ Hclosed) in *. simpl.
  rewrite lookup_insert_eq. repeat split; auto.
Qed.

(** C2. A page leave hands storage one "Page Leave" record whose
    [timeSpent] is the whole number of seconds in (leave time - stored
    visit time), rounded down, when a visit time is stored for the user,
    and 0 when none is; either way the caller gets 200 once storage
    accepts the record. *)
Theorem leave_time_spent (user : User) (now : Z) (st : Server) :
  ∃ n : Z,
    emitted (page_leave user now st).2 = [page_leave_record (id user) now n]
    ∧ (∀ t0, userVisitTimes st !! id user = Some {| visitTime := t0 |} →
             1000 * n ≤ now - t0 < 1000 * n + 1000)
    ∧ (userVisitTimes st !! id user = None → n = 0)
    ∧ response (page_leave user now st).2 None = Send 200 "Page leave recorded".
Proof.
  destruct (userVisitTimes st !! id user) as [[t]|] eqn:E.
  - exists ((now - t) / 1000). unfold page_leave. rewrite E. simpl.
    split; [done|]. split; [|done].
    intros t0 [= <-].
    pose proof (Z.mul_div_le (now - t) 1000).
    pose proof (Z.mul_succ_div_gt (now - t) 1000). lia.
  - exists 0. unfold page_leave. rewrite E. simpl. repeat split; done.
Qed.

(** C3. A page visit that follows a page leave of the same user is
    never the duplicate path, whatever the state before the leave: the
    leave clears the guard, the visit stores its own time, sets the guard
    again, hands a new "Page Visit" record to storage and answers 200
    once storage accepts it. *)
Theorem visit_after_leave_is_new (user : User) (t1 t2 : Z) (st : Server) :
  let r1 := page_leave user t1 st in
  let r2 := page_visit user t2 r1.1 in
  session_open r1.1 (id user) = false
  ∧ userVisitTimes r1.1 !! id user = None
  ∧ emitted r2.2 = [page_visit_record (id user) t2]
  ∧ userVisitTimes r2.1 !! id user = Some {| visitTime := t2 |}
  ∧ session_open r2.1 (id user) = true
  ∧ response r2.2 None = Send 200 "Page visit recorded".
Proof.
  intros r1 r2.
  assert (Hclosed : session_open r1.1 (id user) = false)
    by apply session_closed_after_leave.
  subst r2. rewrite (page_visit_fresh _ _ _ Hclosed). simpl.
  unfold session_open. simpl. rewrite !lookup_insert_eq.
  repeat split; try done.
  subst r1. unfold page_leave. simpl. by rewrite lookup_delete_eq.
Qed.

End Tracker.

(** ** Runs of the event loop *)

Section EventLoop.
Context `{Runtime}.

(** The user a request is authenticated as, if any. *)
Definition principal (req : Request) : option Z :=
  match authenticateToken req with
  | Next user => Some (id user)
  | Rejected _ => None
  end.

(** Tasks that are not requests of user [p]: completions of queries and
    requests of other users or without a valid token. *)
Definition by_other (p : Z) (ev : Event) : Prop :=
  match ev with
  | Arrive _ req _ => principal req ≠ Some p
  | Complete _ _ => True
  end.

(** What the loop holds about user [p]: the two map entries and the
    inserts issued for [p]. *)
Definition view (p : Z) (L : Loop)
  : option VisitEntry * option bool * list Insert :=
  (userVisitTimes (server L) !! p, pageVisitLogged (server L) !! p,
   filter (fun q => user_id q = p) (sink L)).

Lemma run_app evs1 evs2 L : run (evs1 ++ evs2)%list L = run evs2 (run evs1 L).
Proof. apply foldl_app. Qed.

Lemma run_cons ev evs L : run (ev :: evs) L = run evs (step L ev).
Proof. reflexivity. Qed.

Lemma take_flight_snoc rid fs f :
  take_flight rid fs = None → for_request f = rid →
  take_flight rid (fs ++ [f])%list = Some (f, fs).
Proof.
  intros Hnone Hf. induction fs as [|g fs IH]; simpl in *.
  - subst rid. by rewrite Nat.eqb_refl.
  - destruct (Nat.eqb (for_request g) rid); [done|].
    destruct (take_flight rid fs) as [[??]|]; [done|].
    by rewrite IH.
Qed.

Lemma step_complete_server rid err L :
  server (step L (Complete rid err)) = server L
  ∧ sink (step L (Complete rid err)) = sink L.
Proof.
  simpl. by destruct (take_flight rid (in_flight L)) as [[??]|].
Qed.

Lemma filter_snoc_other p (q : Insert) qs :
  user_id q ≠ p →
  filter (fun q => user_id q = p) (qs ++ [q])%list
  = filter (fun q => user_id q = p) qs.
Proof.
  intros Hne. rewrite filter_app, filter_cons_False by done.
  rewrite filter_nil. apply app_nil_r.
Qed.

Lemma step_other p ev L : by_other p ev → view p (step L ev) = view p L.
Proof.
  destruct ev as [rid req now|rid err]; intros Hother.
  - unfold by_other, principal in Hother. unfold view, step, handle.
    destruct (authenticateToken req) as [r|user]; [done|].
    assert (Hne : id user ≠ p) by congruence.
    destruct (route req) as [| |event det].
    + unfold page_visit.
      destruct (negb (truthy (pageVisitLogged (server L) !! id user)));
        simpl; [|done].
      rewrite !lookup_insert_ne by done.
      by rewrite filter_snoc_other.
    + unfold page_leave. simpl.
      rewrite !lookup_delete_ne by done.
      by rewrite filter_snoc_other.
    + unfold activity. simpl. by rewrite filter_snoc_other.
  - unfold view. by destruct (step_complete_server rid err L) as [-> ->].
Qed.

Lemma run_others p evs L :
  Forall (by_other p) evs → view p (run evs L) = view p L.
Proof.
  intros Hall. revert L.
  induction Hall as [|ev evs Hev _ IH]; intros L; [done|].
  rewrite run_cons, IH. by apply step_other.
Qed.

Lemma step_visit_fresh rid req now user L :
  authenticateToken req = Next user → route req = PageVisit →
  session_open (server L) (id user) = false →
  view (id user) (step L (Arrive rid req now))
  = (Some {| visitTime := now |}, Some true,
     (filter (fun q => user_id q = id user) (sink L)
        ++ [page_visit_record (id user) now])%list).
Proof.
  intros Hauth Hroute Hclosed. unfold view, step, handle.
  rewrite Hauth, Hroute, (page_visit_fresh _ _ _ Hclosed). simpl.
  rewrite !lookup_insert_eq, filter_app. do 2 f_equal.
  by rewrite filter_cons_True, filter_nil.
Qed.

Lemma step_visit_again rid req now user L :
  authenticateToken req = Next user → route req = PageVisit →
  session_open (server L) (id user) = true →
  server (step L (Arrive rid req now)) = server L
  ∧ sink (step L (Arrive rid req now)) = sink L
  ∧ stored (step L (Arrive rid req now)) = stored L
  ∧ replies (step L (Arrive rid req now))
    = (replies L ++ [(rid, Send 200 "Page visit already recorded")])%list.
Proof.
  intros Hauth Hroute Hopen. unfold step, handle.
  by rewrite Hauth, Hroute, (page_visit_again _ _ _ Hopen).
Qed.

End EventLoop.

Section Concurrency.
Context `{Runtime}.

(** C5. The storage connection rejects the insert of a page visit: the
    caller gets 500, nothing is stored, and the state the handler set
    before issuing the query stays as it is (guard set, visit time
    stored). A retry then takes the duplicate path: 200, no insert
    issued, nothing stored. *)
Theorem failed_insert_keeps_session (L : Loop) (rid1 rid2 : nat)
    (req1 req2 : Request) (user : User) (t1 t2 : Z) (e : DbError) :
  authenticateToken req1 = Next user → route req1 = PageVisit →
  authenticateToken req2 = Next user → route req2 = PageVisit →
  session_open (server L) (id user) = false →
  take_flight rid1 (in_flight L) = None →
  let L1 := run [Arrive rid1 req1 t1; Complete rid1 (Some e)] L in
  let L2 := step L1 (Arrive rid2 req2 t2) in
  replies L1 = (replies L ++ [(rid1, Send 500 "Internal Server Error")])%list
  ∧ sink L1 = (sink L ++ [page_visit_record (id user) t1])%list
  ∧ stored L1 = stored L
  ∧ session_open (server L1) (id user) = true
  ∧ userVisitTimes (server L1) !! id user = Some {| visitTime := t1 |}
  ∧ server L2 = server L1
  ∧ sink L2 = sink L1
  ∧ stored L2 = stored L1
  ∧ replies L2
    = (replies L1 ++ [(rid2, Send 200 "Page visit already recorded")])%list.
Proof.
  intros Hauth1 Hroute1 Hauth2 Hroute2 Hclosed Hfresh L1 L2.
  assert (HL1 : L1 =
    {| server := (page_visit user t1 (server L)).1;
       in_flight := in_flight L;
       sink := (sink L ++ [page_visit_record (id user) t1])%list;
       stored := stored L;
       replies :=
         (replies L ++ [(rid1, Send 500 "Internal Server Error")])%list |}).
  { subst L1. unfold run. simpl. unfold handle.
    rewrite Hauth1, Hroute1, (page_visit_fresh _ _ _ Hclosed). simpl.
    erewrite take_flight_snoc; [done|exact Hfresh|reflexivity]. }
  assert (Hopen : session_open (server L1) (id user) = true).
  { rewrite HL1. simpl. apply session_open_after_visit. }
  destruct (step_visit_again rid2 req2 t2 user L1 Hauth2 Hroute2 Hopen)
    as (Hsrv & Hsink & Hstored & Hreplies).
  subst L2. rewrite Hsrv, Hsink, Hstored, Hreplies.
  rewrite HL1 in *. simpl in *.
  repeat split; try done.
  rewrite (page_visit_fresh _ _ _ Hclosed). simpl. apply lookup_insert_eq.
Qed.

(** C9. Two page-visit requests of one user that are in the server at
    the same time, in any interleaving with query completions and with
    the requests of other users, and with no open session for the user at
    the start: the run ends with the guard set, the visit time of the
    request whose handler ran first stored, and exactly one insert
    issued for the user, the "Page Visit" record of that first request.
    The handler that runs second finds the guard set. *)
Theorem concurrent_visits_one_session (L : Loop) (rid1 rid2 : nat)
    (req1 req2 : Request) (user : User) (t1 t2 : Z)
    (before between after : list Event) :
  authenticateToken req1 = Next user → route req1 = PageVisit →
  authenticateToken req2 = Next user → route req2 = PageVisit →
  session_open (server L) (id user) = false →
  Forall (by_other (id user)) before →
  Forall (by_other (id user)) between →
  Forall (by_other (id user)) after →
  let L' := run (before ++ Arrive rid1 req1 t1 ::
                 between ++ Arrive rid2 req2 t2 :: after)%list L in
  userVisitTimes (server L') !! id user = Some {| visitTime := t1 |}
  ∧ pageVisitLogged (server L') !! id user = Some true
  ∧ filter (fun q => user_id q = id user) (sink L')
    = (filter (fun q => user_id q = id user) (sink L)
         ++ [page_visit_record (id user) t1])%list.
Proof.
  intros Hauth1 Hroute1 Hauth2 Hroute2 Hclosed Hbefore Hbetween Hafter L'.
  set (p := id user) in *.
  set (La := run before L).
  set (Lb := step La (Arrive rid1 req1 t1)).
  set (Lc := run between Lb).
  set (Ld := step Lc (Arrive rid2 req2 t2)).
  assert (HL' : L' = run after Ld).
  { subst L'. by rewrite run_app, run_cons, run_app, run_cons. }
  pose proof (run_others p before L Hbefore) as Ha. fold La in Ha.
  assert (Hclosed_a : session_open (server La) p = false).
  { unfold session_open, view in *. by injection Ha as _ -> _. }
  pose proof (step_visit_fresh rid1 req1 t1 user La Hauth1 Hroute1 Hclosed_a)
    as Hb. fold p Lb in Hb.
  pose proof (run_others p between Lb Hbetween) as Hc. fold Lc in Hc.
  rewrite Hb in Hc.
  assert (Hopen_c : session_open (server Lc) p = true).
  { unfold session_open, view in *. by injection Hc as _ -> _. }
  destruct (step_visit_again rid2 req2 t2 user Lc Hauth2 Hroute2 Hopen_c)
    as (Hsrv & Hsink & _ & _). fold Ld in Hsrv, Hsink.
  assert (Hd : view p Ld = view p Lc).
  { unfold view. by rewrite Hsrv, Hsink. }
  pose proof (run_others p after Ld Hafter) as He.
  rewrite <- HL', Hd, Hc in He.
  unfold view in He, Ha.
  injection He as -> -> ->. injection Ha as _ _ ->. done.
Qed.

End Concurrency.

(** ** The generic activity operation *)

Lemma is_digit_digit (n : Z) : (0 ≤ n ≤ 9)%Z → is_digit (digit n) = true.
Proof.
  intros Hn. unfold is_digit, digit.
  rewrite nat_ascii_embedding by lia.
  apply andb_true_intro. split; apply Nat.leb_le; lia.
Qed.

Lemma digit_value_digit (n : Z) :
  (0 ≤ n ≤ 9)%Z → digit_value (digit n) = Some n.
Proof.
  intros Hn. unfold digit_value. rewrite (is_digit_digit n Hn).
  unfold digit. rewrite nat_ascii_embedding by lia. f_equal. lia.
Qed.

Lemma read_two_digit_fields (h m s : Z) :
  (0 ≤ h < 100)%Z → (0 ≤ m < 100)%Z → (0 ≤ s < 100)%Z →
  read_HHMMSS (two_digit h +:+ ":" +:+ two_digit m +:+ ":" +:+ two_digit s)
  = Some (h, m, s).
Proof.
  intros Hh Hm Hs.
  assert (Hdigits : ∀ n : Z, (0 ≤ n < 100)%Z →
            digit_value (digit (n / 10)) = Some (n / 10)%Z
            ∧ digit_value (digit (n mod 10)) = Some (n mod 10)%Z
            ∧ (10 * (n / 10) + n mod 10 = n)%Z).
  { intros n Hn. split; [|split].
    - apply digit_value_digit. split; [apply Z.div_pos; lia|].
      apply Z.lt_succ_r, Z.div_lt_upper_bound; lia.
    - apply digit_value_digit. pose proof (Z.mod_pos_bound n 10). lia.
    - pose proof (Z.div_mod n 10). lia. }
  destruct (Hdigits h Hh) as (Hh1 & Hh2 & Hhv).
  destruct (Hdigits m Hm) as (Hm1 & Hm2 & Hmv).
  destruct (Hdigits s Hs) as (Hs1 & Hs2 & Hsv).
  unfold read_HHMMSS, two_digit.
  set (a := digit (h / 10)) in *. set (b := digit (h mod 10)) in *.
  set (c := digit (m / 10)) in *. set (d := digit (m mod 10)) in *.
  set (e := digit (s / 10)) in *. set (f := digit (s mod 10)) in *.
  clearbody a b c d e f.
  cbv [String.append list_ascii_of_string].
  change (Ascii.eqb ":" ":") with true. cbv [andb].
  rewrite Hh1, Hh2, Hm1, Hm2, Hs1, Hs2.
  by rewrite Hhv, Hmv, Hsv.
Qed.

Lemma seconds_of_day (x : Z) :
  ((x / 3600000) mod 24 * 3600 + (x / 60000) mod 60 * 60 + (x / 1000) mod 60
   = (x / 1000) mod 86400)%Z.
Proof.
  replace (x / 60000)%Z with (x / 1000 / 60)%Z
    by (rewrite Z.div_div by lia; done).
  replace (x / 3600000)%Z with (x / 1000 / 60 / 60)%Z
    by (rewrite !Z.div_div by lia; done).
  set (S := (x / 1000)%Z).
  pose proof (Z.div_mod S 60). pose proof (Z.mod_pos_bound S 60).
  pose proof (Z.div_mod (S / 60) 60). pose proof (Z.mod_pos_bound (S / 60) 60).
  pose proof (Z.div_mod (S / 60 / 60) 24).
  pose proof (Z.mod_pos_bound (S / 60 / 60) 24).
  apply Z.mod_unique_pos with (q := (S / 60 / 60 / 24)%Z); lia.
Qed.

Section Activity.
Context `{Runtime}.

(** The stamp reads back as the local hour, minute and second of the
    instant it was taken at. *)
Lemma toLocaleTimeString_fields t :
  ∃ hour minute second : Z,
    read_HHMMSS (toLocaleTimeString t) = Some (hour, minute, second)
    ∧ (if midnight_is_24 then (1 ≤ hour ≤ 24)%Z else (0 ≤ hour ≤ 23)%Z)
    ∧ (0 ≤ minute ≤ 59)%Z ∧ (0 ≤ second ≤ 59)%Z
    ∧ (hour mod 24 * 3600 + minute * 60 + second
       = ((t + LocalTZA t) / 1000) mod 86400)%Z.
Proof.
  unfold toLocaleTimeString.
  set (local := t + LocalTZA t).
  set (hour := (local / 3600000) mod 24).
  set (hour' := if midnight_is_24 && Z.eqb hour 0 then 24 else hour).
  set (minute := (local / 60000) mod 60).
  set (second := (local / 1000) mod 60).
  pose proof (Z.mod_pos_bound (local / 3600000) 24) as Hh. fold hour in Hh.
  pose proof (Z.mod_pos_bound (local / 60000) 60) as Hm. fold minute in Hm.
  pose proof (Z.mod_pos_bound (local / 1000) 60) as Hs. fold second in Hs.
  assert (Hh' : (hour' mod 24 = hour)%Z
                ∧ if midnight_is_24 then (1 ≤ hour' ≤ 24)%Z
                  else (0 ≤ hour' ≤ 23)%Z).
  { subst hour'. destruct midnight_is_24; simpl.
    - destruct (Z.eqb_spec hour 0) as [->|Hne].
      + split; [reflexivity | lia].
      + split; [apply Z.mod_small; lia | lia].
    - split; [apply Z.mod_small; lia | lia]. }
  destruct Hh' as [Hmod Hrange].
  exists hour', minute, second.
  split; [|split; [exact Hrange | split; [lia | split; [lia|]]]].
  - apply read_two_digit_fields; [|lia|lia].
    destruct midnight_is_24; lia.
  - rewrite Hmod. apply seconds_of_day.
Qed.

Lemma toLocaleTimeString_shape t : is_HHMMSS (toLocaleTimeString t) = true.
Proof.
  destruct (toLocaleTimeString_fields t)
    as (hour & minute & second & Hread & Hh & Hm & Hs & _).
  unfold is_HHMMSS. rewrite Hread.
  assert (0 ≤ hour ≤ 24)%Z by (destruct midnight_is_24; lia).
  repeat (apply andb_true_intro; split); apply Z.leb_le; lia.
Qed.


(** C10. The [timestamp] property of the details the activity operation
    stores is a string that reads as a 24-hour time of day and nothing
    else (no date): its three fields are the local hour, minute and
    second of the instant of the request. It is the server's value
    whatever [timestamp] the caller sent, and, the caller's property
    names being distinct, no other value remains under that name. The
    page-visit and page-leave records carry the [Date] itself instead. *)
Theorem activity_timestamp_is_time_of_day (user : User) (event det : value)
    (now : Z) (st : Server) :
  (∃ stamped ts (hour minute second : Z),
      emitted (activity user event det now st).2
      = [{| user_id := id user; event_type := event;
            details := JSON_stringify (VObj stamped) |}]
      ∧ ts = toLocaleTimeString now
      ∧ is_HHMMSS ts = true
      ∧ read_HHMMSS ts = Some (hour, minute, second)
      ∧ (if midnight_is_24 then (1 ≤ hour ≤ 24)%Z else (0 ≤ hour ≤ 23)%Z)
      ∧ (0 ≤ minute ≤ 59)%Z ∧ (0 ≤ second ≤ 59)%Z
      ∧ (hour mod 24 * 3600 + minute * 60 + second
         = ((now + LocalTZA now) / 1000) mod 86400)%Z
      ∧ obj_get "timestamp" stamped = Some (VStr ts)
      ∧ (NoDup (own_props det).*1 →
         ∀ v, ("timestamp", v) ∈ stamped → v = VStr ts))
  ∧ (session_open st (id user) = false →
     emitted (page_visit user now st).2
     = [{| user_id := id user; event_type := VStr "Page Visit";
           details := JSON_stringify
             (VObj [("action", VStr "Page Visit");
                    ("timestamp", VDate now)]) |}])
  ∧ (∃ n, emitted (page_leave user now st).2
     = [{| user_id := id user; event_type := VStr "Page Leave";
           details := JSON_stringify
             (VObj [("action", VStr "Page Leave"); ("timestamp", VDate now);
                    ("timeSpent", VNum (inject_Z n))]) |}]).
Proof.
  split; [|split].
  - destruct (toLocaleTimeString_fields now)
      as (hour & minute & second & Hread & Hh & Hm & Hs & Hday).
    exists (obj_set "timestamp" (VStr (toLocaleTimeString now)) (own_props det)),
           (toLocaleTimeString now), hour, minute, second.
    split; [done|]. split; [done|].
    split; [apply toLocaleTimeString_shape|].
    split; [exact Hread|]. split; [exact Hh|].
    split; [exact Hm|]. split; [exact Hs|]. split; [exact Hday|].
    split; [apply obj_get_set_same|].
    intros Hnd v Hin. by eapply obj_set_unique.
  - intros Hclosed. by rewrite (page_visit_fresh _ _ _ Hclosed).
  - by eexists.
Qed.

End Activity.

(** ** The authentication gate *)

Section Gate.
Context `{Runtime}.

(** A handler runs only for a request that carries a token the verifier
    accepts. *)
Lemma handler_runs_only_authenticated req now st q cb :
  handle req now st = (st, Query q cb) ∨ (handle req now st).1 ≠ st →
  ∃ token user, token_of (authorization req) = Some token
                ∧ jwt_verify token = Some user.
Proof.
  unfold handle, authenticateToken.
  destruct (token_of (authorization req)) as [token|].
  - destruct (jwt_verify token) as [user|] eqn:E.
    + intros _. by exists token, user.
    + intros [?|?]; simplify_eq/=.
  - intros [?|?]; simplify_eq/=.
Qed.

End Gate.

(** ** The session invariant *)

Lemma filter_key_absent {V} (p : Z) (l : list (Z * V)) :
  p ∉ l.*1 → filter (fun kv => kv.1 = p) l = [].
Proof.
  induction l as [|[k v] l IH]; simpl; intros Hp; [done|].
  apply not_elem_of_cons in Hp as [Hne Hp].
  rewrite filter_cons_False by (simpl; congruence). by apply IH.
Qed.

Lemma at_most_one_per_key {V} (p : Z) (l : list (Z * V)) :
  NoDup l.*1 → (length (filter (fun kv => kv.1 = p) l) ≤ 1)%nat.
Proof.
  induction l as [|[k v] l IH]; simpl; intros Hnd; [lia|].
  apply NoDup_cons in Hnd as [Hk Hnd].
  destruct (decide (k = p)) as [->|Hne].
  - rewrite filter_cons_True by done. simpl.
    rewrite filter_key_absent by done. simpl. lia.
  - rewrite filter_cons_False by done. by apply IH.
Qed.

Section Invariant.
Context `{Runtime}.

(** Per user: the guard is set exactly when a visit time is stored, the
    guard is never stored as [false], and the visit-time store holds at
    most one entry for the user. *)
Definition session_invariant (st : Server) : Prop :=
  ∀ p : Z,
    (session_open st p = true ↔ is_Some (userVisitTimes st !! p))
    ∧ (pageVisitLogged st !! p = Some true ∨ pageVisitLogged st !! p = None)
    ∧ (length (filter (fun kv => kv.1 = p)
                 (map_to_list (userVisitTimes st))) ≤ 1)%nat.

Lemma invariant_init : session_invariant init.
Proof.
  intros p. unfold session_open, init. simpl.
  rewrite !lookup_empty, map_to_list_empty. simpl.
  split; [|split; [by right | simpl; lia]].
  split; [done | by intros [??]].
Qed.

Lemma invariant_step_maps (st' : Server) :
  (∀ p, (session_open st' p = true ↔ is_Some (userVisitTimes st' !! p))
        ∧ (pageVisitLogged st' !! p = Some true
           ∨ pageVisitLogged st' !! p = None)) →
  session_invariant st'.
Proof.
  intros Hmaps p. destruct (Hmaps p) as [Hiff Hflag].
  split; [done|]. split; [done|].
  apply at_most_one_per_key, NoDup_fst_map_to_list.
Qed.

Lemma reachable_keeps_invariant (st : Server) :
  reachable st → session_invariant st.
Proof.
  induction 1 as [|user now st _ IH|user now st _ IH
                  |user event det now st _ IH].
  - apply invariant_init.
  - destruct (session_open st (id user)) eqn:E.
    + by rewrite page_visit_again.
    + rewrite page_visit_fresh by done. apply invariant_step_maps.
      intros p. destruct (IH p) as (Hiff & Hflag & _).
      unfold session_open in *. simpl.
      destruct (decide (id user = p)) as [<-|Hne].
      * rewrite !lookup_insert_eq. simpl. split; [|by left].
        split; [by eauto | done].
      * by rewrite !lookup_insert_ne.
  - apply invariant_step_maps.
    intros p. destruct (IH p) as (Hiff & Hflag & _).
    unfold session_open, page_leave in *. simpl.
    destruct (decide (id user = p)) as [<-|Hne].
    + rewrite !lookup_delete_eq. simpl. split; [|by right].
      split; [done | by intros [??]].
    + by rewrite !lookup_delete_ne.
  - done.
Qed.

(** C8. In every state reachable by page visits, page leaves and generic
    activity operations, each user has at most one stored visit time,
    and the user's guard is set if and only if a visit time is stored
    for that user. So a page visit of a user for whom a visit time is
    stored never opens a second session: it answers 200, issues no
    insert and leaves the state, stored visit time included, as it is. *)
Theorem reachable_session_invariant (st : Server) :
  reachable st →
  session_invariant st
  ∧ ∀ user now,
      is_Some (userVisitTimes st !! id user) →
      page_visit user now st
      = (st, Respond (Send 200 "Page visit already recorded")).
Proof.
  intros Hreach. pose proof (reachable_keeps_invariant st Hreach) as Hinv.
  split; [exact Hinv|].
  intros user now Hstored. apply page_visit_again.
  by apply (Hinv (id user)).
Qed.

(** Every state of the event loop is such a state. *)
Lemma run_reachable evs L :
  reachable (server L) → reachable (server (run evs L)).
Proof.
  revert L. induction evs as [|ev evs IH]; intros L HL; [done|].
  rewrite run_cons. apply IH.
  destruct ev as [rid req now|rid err].
  - unfold step, handle.
    destruct (authenticateToken req) as [r|user]; [done|].
    destruct (route req) as [| |event det].
    + pose proof (reach_visit user now _ HL) as Hr.
      by destruct (page_visit user now (server L)) as [st' [r|q cb]].
    + exact (reach_leave user now _ HL).
    + exact HL.
  - by destruct (step_complete_server rid err L) as [-> _].
Qed.

End Invariant.

(** ** The relay *)

Section RelayProperties.
Import Relay.

Lemma elem_of_broadcast_emit connected sender ev arg d :
  d ∈ broadcast_emit connected sender ev arg
  ↔ recipient d ∈ connected ∧ recipient d ≠ sender
    ∧ event d = ev ∧ payload d = arg.
Proof.
  unfold broadcast_emit. rewrite list_elem_of_fmap. split.
  - intros (r & -> & Hr). apply elem_of_elements in Hr. simpl.
    apply elem_of_difference in Hr as [Hc Hs].
    rewrite elem_of_singleton in Hs. done.
  - intros (Hc & Hs & <- & <-). exists (recipient d).
    split; [by destruct d|]. apply elem_of_elements.
    apply elem_of_difference. by rewrite elem_of_singleton.
Qed.

Lemma on_message_kind connected sender k arg :
  on_message connected sender (event_name k) arg
  = broadcast_emit connected sender (event_name k) arg.
Proof. by destruct k. Qed.

(** C4. A connected peer A sends an offer, an answer or an ICE
    candidate while B and C are connected: B and C are each sent that
    event with that payload, every delivery carries that event and
    payload to a connected peer other than A, every connected peer other
    than A is served, and none twice. *)
Theorem relay_broadcasts_to_others (k : Kind) (connected : gset string)
    (A B C : string) (msg : value) :
  A ∈ connected → B ∈ connected → C ∈ connected → A ≠ B → A ≠ C →
  let ds := on_message connected A (event_name k) msg in
  {| recipient := B; event := event_name k; payload := msg |} ∈ ds
  ∧ {| recipient := C; event := event_name k; payload := msg |} ∈ ds
  ∧ (∀ d, d ∈ ds →
          recipient d ≠ A ∧ recipient d ∈ connected
          ∧ event d = event_name k ∧ payload d = msg)
  ∧ (∀ X, X ∈ connected → X ≠ A →
          {| recipient := X; event := event_name k; payload := msg |} ∈ ds)
  ∧ NoDup ds.
Proof.
  intros HA HB HC HAB HAC ds. subst ds. rewrite on_message_kind.
  split; [|split; [|split; [|split]]].
  - apply elem_of_broadcast_emit. simpl. by eauto.
  - apply elem_of_broadcast_emit. simpl. by eauto.
  - intros d Hd. apply elem_of_broadcast_emit in Hd.
    by destruct Hd as (? & ? & ? & ?).
  - intros X HX HXA. apply elem_of_broadcast_emit. by simpl.
  - unfold broadcast_emit. apply NoDup_fmap_2; [|apply NoDup_elements].
    by intros x y [=].
Qed.

End RelayProperties.

(** * Worked examples *)

(** The theorems above at concrete inputs, on the sample runtime: user 7
    and user 9 hold valid tokens, the server clock is on UTC. *)
Section Examples.
Import Sample Relay.

Let u7 : User := {| id := 7 |}.

Lemma visit_twice_one_record_witness :
  session_open init 7 = false
  ∧ (emitted (page_visit u7 1000 init).2
       ++ emitted (page_visit u7 2000 (page_visit u7 1000 init).1).2)%list
    = [page_visit_record 7 1000]
  ∧ userVisitTimes (page_visit u7 2000 (page_visit u7 1000 init).1).1 !! 7
    = Some {| visitTime := 1000 |}.
Proof.
  assert (Hclosed : session_open init (id u7) = false) by reflexivity.
  destruct (visit_twice_one_record u7 1000 2000 init Hclosed)
    as (Hone & _ & _ & Htime & _).
  split; [exact Hclosed|]. split; [exact Hone | exact Htime].
Defined.

Lemma leave_time_spent_witness :
  (∃ n, emitted (page_leave u7 5999 (page_visit u7 1000 init).1).2
        = [page_leave_record 7 5999 n]
        ∧ 1000 * n ≤ 5999 - 1000 < 1000 * n + 1000)
  ∧ (∃ n, emitted (page_leave u7 5999 init).2 = [page_leave_record 7 5999 n]
          ∧ n = 0).
Proof.
  split.
  - destruct (leave_time_spent u7 5999 (page_visit u7 1000 init).1)
      as (n & He & Hsome & _).
    exists n. split; [exact He|]. apply Hsome. reflexivity.
  - destruct (leave_time_spent u7 5999 init) as (n & He & _ & Hnone & _).
    exists n. split; [exact He|]. apply Hnone. reflexivity.
Defined.

Lemma relay_broadcasts_to_others_witness :
  {| recipient := "b"; event := "offer"; payload := VStr "sdp" |}
    ∈ on_message {[ "a"; "b"; "c" ]} "a" "offer" (VStr "sdp")
  ∧ {| recipient := "c"; event := "offer"; payload := VStr "sdp" |}
    ∈ on_message {[ "a"; "b"; "c" ]} "a" "offer" (VStr "sdp").
Proof.
  assert (Ha : "a" ∈ ({[ "a"; "b"; "c" ]} : gset string))
    by (apply elem_of_union_l, elem_of_union_l, elem_of_singleton; reflexivity).
  assert (Hb : "b" ∈ ({[ "a"; "b"; "c" ]} : gset string))
    by (apply elem_of_union_l, elem_of_union_r, elem_of_singleton; reflexivity).
  assert (Hc : "c" ∈ ({[ "a"; "b"; "c" ]} : gset string))
    by (apply elem_of_union_r, elem_of_singleton; reflexivity).
  assert (Hab : "a" ≠ "b") by discriminate.
  assert (Hac : "a" ≠ "c") by discriminate.
  destruct (relay_broadcasts_to_others Offer {[ "a"; "b"; "c" ]}
              "a" "b" "c" (VStr "sdp") Ha Hb Hc Hab Hac)
    as (HB & HC & _).
  split; [exact HB | exact HC].
Defined.

Lemma failed_insert_keeps_session_witness :
  let L1 := run [Arrive 1 (visit_by "token-of-7") 10;
                 Complete 1 (Some "ER_LOCK_DEADLOCK")] boot in
  let L2 := step L1 (Arrive 2 (visit_by "token-of-7") 20) in
  replies L1 = [(1%nat, Send 500 "Internal Server Error")]
  ∧ stored L1 = []
  ∧ session_open (server L1) 7 = true
  ∧ sink L2 = sink L1
  ∧ replies L2
    = (replies L1 ++ [(2%nat, Send 200 "Page visit already recorded")])%list.
Proof.
  assert (Hauth : authenticateToken (visit_by "token-of-7") = Next u7)
    by reflexivity.
  assert (Hclosed : session_open (server boot) (id u7) = false)
    by reflexivity.
  destruct (failed_insert_keeps_session boot 1 2
              (visit_by "token-of-7") (visit_by "token-of-7") u7 10 20
              "ER_LOCK_DEADLOCK"
              Hauth eq_refl Hauth eq_refl Hclosed eq_refl)
    as (Hr1 & _ & Hs1 & Hopen & _ & _ & Hsink & _ & Hr2).
  repeat split; assumption.
Defined.


Lemma reachable_session_invariant_witness :
  let st := (page_visit {| id := 9 |} 20 (page_visit u7 10 init).1).1 in
  userVisitTimes st !! 7 = Some {| visitTime := 10 |}
  ∧ userVisitTimes st !! 9 = Some {| visitTime := 20 |}
  ∧ session_invariant st
  ∧ page_visit u7 30 st
    = (st, Respond (Send 200 "Page visit already recorded")).
Proof.
  intros st.
  destruct (reachable_session_invariant st) as [Hinv Hdup].
  { apply reach_visit, reach_visit, reach_init. }
  split; [reflexivity|]. split; [reflexivity|]. split; [exact Hinv|].
  apply Hdup. exists {| visitTime := 10 |}. reflexivity.
Defined.

Lemma concurrent_visits_one_session_witness :
  userVisitTimes
    (server (run [Arrive 1 (visit_by "token-of-7") 10;
                  Arrive 3 (visit_by "token-of-9") 15;
                  Arrive 2 (visit_by "token-of-7") 20;
                  Complete 1 None] boot)) !! 7
  = Some {| visitTime := 10 |}
  ∧ filter (fun q => user_id q = 7)
      (sink (run [Arrive 1 (visit_by "token-of-7") 10;
                  Arrive 3 (visit_by "token-of-9") 15;
                  Arrive 2 (visit_by "token-of-7") 20;
                  Complete 1 None] boot))
    = [page_visit_record 7 10].
Proof.
  assert (Hbetween :
    Forall (by_other (id u7)) [Arrive 3 (visit_by "token-of-9") 15]).
  { apply Forall_cons. split; [discriminate | apply Forall_nil_2]. }
  assert (Hafter : Forall (by_other (id u7)) [Complete 1 None]).
  { apply Forall_cons. split; [exact I | apply Forall_nil_2]. }
  assert (Hauth : authenticateToken (visit_by "token-of-7") = Next u7)
    by reflexivity.
  assert (Hclosed : session_open (server boot) (id u7) = false)
    by reflexivity.
  destruct (concurrent_visits_one_session boot 1 2
              (visit_by "token-of-7") (visit_by "token-of-7") u7 10 20
              [] [Arrive 3 (visit_by "token-of-9") 15] [Complete 1 None]
              Hauth eq_refl Hauth eq_refl Hclosed
              (Forall_nil_2 _) Hbetween Hafter)
    as (Htime & _ & Hsink).
  split; [exact Htime | exact Hsink].
Defined.

Lemma activity_timestamp_is_time_of_day_witness :
  (∃ stamped ts,
     emitted (activity u7 (VStr "click")
                (VObj [("timestamp", VStr "mine")]) 1730502123456 init).2
     = [{| user_id := 7; event_type := VStr "click";
           details := JSON_stringify (VObj stamped) |}]
     ∧ ts = "23:02:03"
     ∧ read_HHMMSS ts = Some (23, 2, 3)
     ∧ (23 * 3600 + 2 * 60 + 3 = (1730502123456 / 1000) mod 86400)%Z
     ∧ ∀ v, ("timestamp", v) ∈ stamped → v = VStr ts)
  ∧ emitted (page_visit u7 1730502123456 init).2
    = [{| user_id := 7; event_type := VStr "Page Visit";
          details := JSON_stringify
            (VObj [("action", VStr "Page Visit");
                   ("timestamp", VDate 1730502123456)]) |}].
Proof.
  destruct (activity_timestamp_is_time_of_day u7 (VStr "click")
              (VObj [("timestamp", VStr "mine")]) 1730502123456 init)
    as ((stamped & ts & hour & minute & second & He & Hts & _ & Hread
         & _ & _ & _ & _ & _ & Honly) & Hvisit & _).
  split.
  - exists stamped, ts. split; [exact He|]. split; [exact Hts|].
    split; [rewrite Hts; reflexivity|]. split; [reflexivity|].
    apply Honly. apply NoDup_singleton.
  - apply Hvisit. reflexivity.
Defined.

End Examples.

(** * Further properties of the middleware and the handlers *)

(** ** Reading the token out of the header *)

(** No space occurs in the string. *)
Fixpoint no_space (s : string) : bool :=
  match s with
  | EmptyString => true
  | String c s' => negb (Ascii.eqb c " ") && no_space s'
  end.

Lemma split_nonempty sep s : ∃ w ws, split sep s = w :: ws.
Proof.
  destruct s as [|c s]; simpl; [by eauto|].
  destruct (Ascii.eqb c sep); [by eauto|].
  destruct (split sep s); by eauto.
Qed.

Lemma split_no_space s : no_space s = true → split " " s = [s].
Proof.
  induction s as [|c s IH]; simpl; [done|].
  intros [Hc Hs]%andb_true_iff. apply negb_true_iff in Hc.
  by rewrite Hc, IH.
Qed.

Lemma split_at_space a b :
  no_space a = true → split " " (a +:+ String " " b) = a :: split " " b.
Proof.
  induction a as [|c a IH]; simpl; [done|].
  intros [Hc Ha]%andb_true_iff. apply negb_true_iff in Hc.
  by rewrite Hc, IH.
Qed.

Lemma split_with_space s :
  no_space s = false → ∃ a b rest, split " " s = a :: b :: rest.
Proof.
  induction s as [|c s IH]; simpl; [done|].
  destruct (Ascii.eqb c " ") eqn:Hc; simpl.
  - intros _. destruct (split_nonempty " " s) as (w & ws & ->). by eauto.
  - intros Hs. destruct (IH Hs) as (a & b & rest & ->). by eauto.
Qed.

Lemma token_of_glued s :
  s ≠ EmptyString → token_of (Some s) = split " " s !! 1%nat.
Proof. by destruct s. Qed.

Lemma token_of_two_fields scheme token :
  no_space scheme = true → no_space token = true →
  token_of (Some (scheme +:+ String " " token)) = Some token.
Proof.
  intros Hscheme Htoken. rewrite token_of_glued by (by destruct scheme).
  by rewrite (split_at_space _ _ Hscheme), (split_no_space _ Htoken).
Qed.

(** X1. The middleware takes the second space-separated field of the
    header as the token and never looks at the first: for any scheme
    word and any token without spaces, [scheme token] yields [token],
    and whatever follows a further space is dropped. *)
Theorem bearer_token_extracted (scheme token rest : string) :
  no_space scheme = true → no_space token = true →
  token_of (Some (scheme +:+ String " " token)) = Some token
  ∧ token_of (Some (scheme +:+ String " " (token +:+ String " " rest)))
    = Some token.
Proof.
  intros Hscheme Htoken. split.
  - rewrite token_of_glued by (by destruct scheme).
    by rewrite (split_at_space _ _ Hscheme), (split_no_space _ Htoken).
  - rewrite token_of_glued by (by destruct scheme).
    by rewrite (split_at_space _ _ Hscheme), (split_at_space _ _ Htoken).
Qed.

Section MoreGate.
Context `{Runtime}.

(** X2. The middleware answers 401 exactly when the header is absent or
    is a non-empty string without a space. An empty header and a header
    with a space always reach [jwt.verify], whose verdict then decides
    between 403 and the handler. *)
Theorem unauthorized_iff_no_second_field (req : Request) :
  authenticateToken req = Rejected (SendStatus 401)
  ↔ authorization req = None
    ∨ ∃ h, authorization req = Some h ∧ h ≠ EmptyString
           ∧ no_space h = true.
Proof.
  unfold authenticateToken.
  destruct (authorization req) as [h|] eqn:Eh; [|by intuition].
  destruct (decide (h = EmptyString)) as [->|Hne].
  - simpl. split.
    + by destruct (jwt_verify EmptyString).
    + intros [?|(h & [= <-] & ? & _)]; done.
  - rewrite (token_of_glued _ Hne).
    destruct (no_space h) eqn:Hsp.
    + rewrite (split_no_space _ Hsp). simpl.
      split; [|done]. intros _. right. by exists h.
    + destruct (split_with_space _ Hsp) as (a & b & rest & ->). simpl.
      split.
      * by destruct (jwt_verify b).
      * intros [?|(h' & [= <-] & _ & ?)]; congruence.
Qed.

(** X3. A monitoring request changes the tracker state or issues an
    insert only if its header carries a token that [jwt.verify]
    accepts. *)
Theorem only_authenticated_requests_act (req : Request) (now : Z)
    (st : Server) :
  (handle req now st).1 ≠ st ∨ emitted (handle req now st).2 ≠ [] →
  ∃ token user, token_of (authorization req) = Some token
                ∧ jwt_verify token = Some user
                ∧ authenticateToken req = Next user.
Proof.
  unfold handle, authenticateToken.
  destruct (token_of (authorization req)) as [token|].
  - destruct (jwt_verify token) as [user|] eqn:E.
    + intros _. by exists token, user.
    + by intros [?|?].
  - by intros [?|?].
Qed.



End MoreGate.

(** ** Sessions over runs of the event loop *)

Section MoreTracker.
Context `{Runtime}.

(** A page-leave request of user [p]. *)
Definition leave_of (p : Z) (ev : Event) : Prop :=
  match ev with
  | Arrive _ req _ => principal req = Some p ∧ route req = PageLeave
  | Complete _ _ => False
  end.

(** A page-visit request of user [p]. *)
Definition visit_of (p : Z) (ev : Event) : Prop :=
  match ev with
  | Arrive _ req _ => principal req = Some p ∧ route req = PageVisit
  | Complete _ _ => False
  end.

Lemma step_rejected_or_complete ev L :
  match ev with
  | Arrive _ req _ => principal req = None
  | Complete _ _ => True
  end → server (step L ev) = server L.
Proof.
  destruct ev as [rid req now|rid err].
  - unfold principal, step, handle.
    by destruct (authenticateToken req).
  - intros _. by destruct (step_complete_server rid err L).
Qed.

Lemma view_eq p L L' :
  view p L' = view p L →
  userVisitTimes (server L') !! p = userVisitTimes (server L) !! p
  ∧ pageVisitLogged (server L') !! p = pageVisitLogged (server L) !! p
  ∧ filter (fun q => user_id q = p) (sink L')
    = filter (fun q => user_id q = p) (sink L).
Proof. unfold view. by intros [= -> -> ->]. Qed.

Lemma step_keeps_open p e ev L :
  ¬ leave_of p ev →
  userVisitTimes (server L) !! p = Some e →
  pageVisitLogged (server L) !! p = Some true →
  userVisitTimes (server (step L ev)) !! p = Some e
  ∧ pageVisitLogged (server (step L ev)) !! p = Some true.
Proof.
  intros Hnl Htime Hflag.
  destruct ev as [rid req now|rid err];
    [|by rewrite (step_rejected_or_complete (Complete rid err) L)].
  destruct (decide (principal req = Some p)) as [Hp|Hp].
  - unfold leave_of in Hnl. unfold principal in Hp. unfold step, handle.
    destruct (authenticateToken req) as [r|user] eqn:Hauth; [done|].
    injection Hp as <-. destruct (route req) as [| |event det] eqn:Hroute.
    + rewrite page_visit_again; [done|].
      unfold session_open. by rewrite Hflag.
    + exfalso. apply Hnl. unfold principal. by rewrite Hauth.
    + done.
  - destruct (view_eq p _ _ (step_other p (Arrive rid req now) L Hp))
      as (-> & -> & _). done.
Qed.

(** X5. An open session has no expiry: whatever runs on the server, as
    long as no page-leave request of the user arrives, the user's guard
    stays set and the stored visit time stays the one of the visit that
    opened the session (later visits of the user do not refresh it). *)
Theorem session_persists_until_leave (p : Z) (e : VisitEntry)
    (evs : list Event) (L : Loop) :
  Forall (fun ev => ¬ leave_of p ev) evs →
  userVisitTimes (server L) !! p = Some e →
  pageVisitLogged (server L) !! p = Some true →
  userVisitTimes (server (run evs L)) !! p = Some e
  ∧ pageVisitLogged (server (run evs L)) !! p = Some true.
Proof.
  intros Hall. revert L.
  induction Hall as [|ev evs Hev _ IH]; intros L Htime Hflag; [done|].
  rewrite run_cons.
  destruct (step_keeps_open p e ev L Hev Htime Hflag) as [Htime' Hflag'].
  by apply IH.
Qed.

Lemma step_keeps_closed p ev L :
  ¬ visit_of p ev →
  userVisitTimes (server L) !! p = None →
  session_open (server L) p = false →
  userVisitTimes (server (step L ev)) !! p = None
  ∧ session_open (server (step L ev)) p = false.
Proof.
  intros Hnv Htime Hflag.
  destruct ev as [rid req now|rid err];
    [|by rewrite (step_rejected_or_complete (Complete rid err) L)].
  destruct (decide (principal req = Some p)) as [Hp|Hp].
  - unfold visit_of in Hnv. unfold principal in Hp. unfold step, handle.
    destruct (authenticateToken req) as [r|user] eqn:Hauth; [done|].
    injection Hp as <-. destruct (route req) as [| |event det] eqn:Hroute.
    + exfalso. apply Hnv. unfold principal. by rewrite Hauth.
    + unfold session_open, page_leave. simpl.
      by rewrite !lookup_delete_eq.
    + done.
  - unfold session_open in *.
    destruct (view_eq p _ _ (step_other p (Arrive rid req now) L Hp))
      as (-> & -> & _). done.
Qed.

(** X6. Only a page visit of the user opens a session for the user: over
    any run without one, a user with no stored visit time and no guard
    stays so. *)
Theorem session_opens_only_by_visit (p : Z) (evs : list Event) (L : Loop) :
  Forall (fun ev => ¬ visit_of p ev) evs →
  userVisitTimes (server L) !! p = None →
  session_open (server L) p = false →
  userVisitTimes (server (run evs L)) !! p = None
  ∧ session_open (server (run evs L)) p = false.
Proof.
  intros Hall. revert L.
  induction Hall as [|ev evs Hev _ IH]; intros L Htime Hflag; [done|].
  rewrite run_cons.
  destruct (step_keeps_closed p ev L Hev Htime Hflag) as [Htime' Hflag'].
  by apply IH.
Qed.

(** X4. Requests of other users, rejected requests and query
    completions leave a user's two map entries as they are and issue no
    insert in the user's name. *)
Theorem other_users_untouched (p : Z) (evs : list Event) (L : Loop) :
  Forall (by_other p) evs →
  userVisitTimes (server (run evs L)) !! p = userVisitTimes (server L) !! p
  ∧ pageVisitLogged (server (run evs L)) !! p
    = pageVisitLogged (server L) !! p
  ∧ filter (fun q => user_id q = p) (sink (run evs L))
    = filter (fun q => user_id q = p) (sink L).
Proof.
  intros Hall. by apply view_eq, run_others.
Qed.

(** ** Visits and leaves in sequence *)

(** X7. A second page leave in a row finds nothing to clear: the state
    stays as the first leave left it, and the record it still issues
    reports 0 seconds. *)
Theorem leave_twice_second_is_zero (user : User) (t1 t2 : Z) (st : Server) :
  let r1 := page_leave user t1 st in
  let r2 := page_leave user t2 r1.1 in
  r2.1 = r1.1 ∧ emitted r2.2 = [page_leave_record (id user) t2 0].
Proof.
  intros r1 r2. subst r2 r1. unfold page_leave. simpl.
  rewrite !delete_delete_eq, lookup_delete_eq. done.
Qed.

(** X8. For a user with no entry in either map, a page visit followed by
    a page leave puts both maps back exactly as they were, and the leave
    record reports the whole seconds between the two. *)
Theorem visit_then_leave_restores_state (user : User) (t1 t2 : Z)
    (st : Server) :
  userVisitTimes st !! id user = None →
  pageVisitLogged st !! id user = None →
  let r1 := page_visit user t1 st in
  let r2 := page_leave user t2 r1.1 in
  r2.1 = st
  ∧ emitted r2.2 = [page_leave_record (id user) t2 ((t2 - t1) / 1000)].
Proof.
  intros Htime Hflag r1 r2. subst r2 r1.
  rewrite page_visit_fresh by (unfold session_open; by rewrite Hflag).
  unfold page_leave. simpl.
  rewrite lookup_insert_eq, !delete_insert_id by done. simpl.
  by destruct st.
Qed.

(** X9. Time on page is counted from the visit that opened the session:
    a duplicate visit in between does not restart the clock. *)
Theorem time_spent_from_first_visit (user : User) (t1 t2 t3 : Z)
    (st : Server) :
  session_open st (id user) = false →
  let r1 := page_visit user t1 st in
  let r2 := page_visit user t2 r1.1 in
  let r3 := page_leave user t3 r2.1 in
  emitted r3.2 = [page_leave_record (id user) t3 ((t3 - t1) / 1000)].
Proof.
  intros Hclosed r1 r2 r3. subst r3 r2.
  rewrite (page_visit_again _ _ r1.1) by apply session_open_after_visit.
  subst r1. rewrite page_visit_fresh by done.
  unfold page_leave. simpl. by rewrite lookup_insert_eq.
Qed.

(** X10. The reported time is not clamped: it is negative exactly when
    the leave is stamped earlier than the stored visit (the server clock
    was set back), and then at most -1. *)
Theorem time_spent_sign (user : User) (now t0 : Z) (st : Server) :
  userVisitTimes st !! id user = Some {| visitTime := t0 |} →
  ∃ n : Z,
    emitted (page_leave user now st).2 = [page_leave_record (id user) now n]
    ∧ ((0 ≤ n)%Z ↔ (t0 ≤ now)%Z) ∧ ((n ≤ -1)%Z ↔ (now < t0)%Z).
Proof.
  intros Htime. exists ((now - t0) / 1000).
  unfold page_leave. rewrite Htime. simpl. split; [done|].
  pose proof (Z.mul_div_le (now - t0) 1000).
  pose proof (Z.mul_succ_div_gt (now - t0) 1000). lia.
Qed.

(** X11. A page leave whose insert the storage rejects still clears the
    session: the caller gets 500, nothing is stored, the visit time is
    gone, and a repeated leave can only report 0 seconds. *)
Theorem failed_leave_loses_visit_time (L : Loop) (rid1 rid2 : nat)
    (req1 req2 : Request) (user : User) (t0 t1 t2 : Z) (e : DbError) :
  authenticateToken req1 = Next user → route req1 = PageLeave →
  authenticateToken req2 = Next user → route req2 = PageLeave →
  userVisitTimes (server L) !! id user = Some {| visitTime := t0 |} →
  take_flight rid1 (in_flight L) = None →
  let L1 := run [Arrive rid1 req1 t1; Complete rid1 (Some e)] L in
  let L2 := step L1 (Arrive rid2 req2 t2) in
  replies L1 = (replies L ++ [(rid1, Send 500 "Internal Server Error")])%list
  ∧ sink L1
    = (sink L ++ [page_leave_record (id user) t1 ((t1 - t0) / 1000)])%list
  ∧ stored L1 = stored L
  ∧ userVisitTimes (server L1) !! id user = None
  ∧ session_open (server L1) (id user) = false
  ∧ sink L2 = (sink L1 ++ [page_leave_record (id user) t2 0])%list.
Proof.
  intros Hauth1 Hroute1 Hauth2 Hroute2 Htime Hfresh L1 L2.
  assert (HL1 : L1 =
    {| server := (page_leave user t1 (server L)).1;
       in_flight := in_flight L;
       sink :=
         (sink L ++ [page_leave_record (id user) t1 ((t1 - t0) / 1000)])%list;
       stored := stored L;
       replies :=
         (replies L ++ [(rid1, Send 500 "Internal Server Error")])%list |}).
  { subst L1. unfold run. simpl. unfold handle.
    rewrite Hauth1, Hroute1. unfold page_leave at 1 2 3. rewrite Htime. simpl.
    erewrite take_flight_snoc; [done|exact Hfresh|reflexivity]. }
  subst L2. rewrite HL1. unfold step, handle. rewrite Hauth2, Hroute2.
  unfold page_leave, session_open. simpl.
  rewrite !lookup_delete_eq. done.
Qed.

End MoreTracker.

(** ** The stamped details *)


Lemma day_part_shift (x k d m c : Z) :
  (0 < d)%Z → (0 < m)%Z → (86400000 = c * m * d)%Z →
  (((x + 86400000 * k) / d) mod m = (x / d) mod m)%Z.
Proof.
  intros Hd Hm ->.
  replace (x + c * m * d * k)%Z with (x + (c * k * m) * d)%Z by lia.
  rewrite Z.div_add by lia.
  replace (x / d + c * k * m)%Z with (x / d + (c * k) * m)%Z by lia.
  apply Z.mod_add. lia.
Qed.

Section MoreActivity.
Context `{Runtime}.


(** X13. The stamp cannot tell days apart: two instants a whole number
    of days from each other, with the same offset of local time, are
    stamped identically. *)
Theorem stamp_forgets_date (t k : Z) :
  LocalTZA (t + 86400000 * k) = LocalTZA t →
  toLocaleTimeString (t + 86400000 * k) = toLocaleTimeString t.
Proof.
  intros Htz. unfold toLocaleTimeString. rewrite Htz.
  replace (t + 86400000 * k + LocalTZA t)%Z
    with ((t + LocalTZA t) + 86400000 * k)%Z by lia.
  rewrite (day_part_shift _ k 3600000 24 1) by lia.
  rewrite (day_part_shift _ k 60000 60 24) by lia.
  rewrite (day_part_shift _ k 1000 60 1440) by lia.
  done.
Qed.

End MoreActivity.

(** ** More on the relay *)

Section MoreRelay.
Import Relay.

(** X14. The relay forwards nothing but the three signalling events: an
    event of any other name reaches no peer. *)
Theorem relay_ignores_other_events (connected : gset string)
    (sender ev : string) (arg : value) :
  ev ≠ "offer" → ev ≠ "answer" → ev ≠ "ice-candidate" →
  on_message connected sender ev arg = [].
Proof.
  intros H1 H2 H3. unfold on_message.
  apply String.eqb_neq in H1, H2, H3. by rewrite H1, H2, H3.
Qed.

(** X15. With exactly two peers connected, a signalling message goes to
    the other peer and to no one else; a peer alone reaches no one. *)
Theorem relay_two_party (k : Kind) (A B : string) (msg : value) :
  A ≠ B →
  on_message {[ A; B ]} A (event_name k) msg
  = [{| recipient := B; event := event_name k; payload := msg |}]
  ∧ on_message {[ A ]} A (event_name k) msg = [].
Proof.
  intros HAB. rewrite !on_message_kind. unfold broadcast_emit.
  assert (H2 : ({[ A; B ]} : gset string) ∖ {[ A ]} = {[ B ]}).
  { apply set_eq. intros x.
    rewrite elem_of_difference, elem_of_union, !elem_of_singleton.
    split; [by intros [[?|?] ?] | intros ->; split; [by right | congruence]]. }
  assert (H1 : ({[ A ]} : gset string) ∖ {[ A ]} = ∅).
  { apply set_eq. intros x.
    rewrite elem_of_difference, elem_of_singleton, elem_of_empty. tauto. }
  by rewrite H2, H1, elements_singleton, elements_empty.
Qed.

(** X16. After a peer has disconnected, no message is sent to it, and
    the remaining peers are served as before. *)
Theorem relay_skips_disconnected (k : Kind) (connected : gset string)
    (A B : string) (msg : value) :
  let ds := on_message (on_disconnect B connected) A (event_name k) msg in
  (∀ d, d ∈ ds → recipient d ≠ B)
  ∧ (∀ X, X ∈ connected → X ≠ A → X ≠ B →
          {| recipient := X; event := event_name k; payload := msg |} ∈ ds).
Proof.
  intros ds. subst ds. rewrite on_message_kind. unfold on_disconnect. split.
  - intros d (Hd & _)%elem_of_broadcast_emit.
    apply elem_of_difference in Hd as [_ Hd].
    by rewrite elem_of_singleton in Hd.
  - intros X HX HXA HXB. apply elem_of_broadcast_emit. simpl.
    split; [|done]. apply elem_of_difference.
    by rewrite elem_of_singleton.
Qed.

End MoreRelay.

(** * Registration and login *)

(** [Backend/controllers/authController.js] with the two queries of the
    user model it calls. A controller is a tree: it answers, or it hands
    a statement to the storage connection and goes on in the callback
    with whatever the connection reports. *)
Module Accounts.

(** A row of [users] as far as the controllers read it:
    [result[0].id] and [result[0].password]. *)
Record UserRow := { row_id : Z; row_password : value }.

(** The [username] and [password] fields of the parsed body. *)
Record Credentials := { username : value; password : value }.

(** The object [createUser] receives. *)
Record NewUser := { new_username : value; new_password : string }.

Class Libraries := {
  (** [bcrypt.hashSync(s, 10)], given the salt it draws; [None] when it
      throws. *)
  bcrypt_hashSync : value -> string -> option string;
  (** [bcrypt.compareSync(s, hash)]; [None] when it throws. *)
  bcrypt_compareSync : value -> value -> option bool;
  (** [jwt.sign({ id }, process.env.JWT_SECRET, { expiresIn: '1h' })] at
      a given instant. *)
  jwt_sign : Z -> Z -> string
}.

Inductive Flow : Type :=
| Json (status : Z) (body : value)
| Throws
| SelectUsers (name : value) (callback : DbError + list UserRow -> Flow)
| InsertUsers (name : value) (pass : string)
    (callback : option DbError -> Flow).

(** [{ message: text }] *)
Definition message (text : string) : value := VObj [("message", VStr text)].

(** The user model: [INSERT INTO users (username, password) VALUES (?, ?)]
    and [SELECT * FROM users WHERE username = ?]. *)
Definition createUser (user : NewUser) (callback : option DbError -> Flow)
  : Flow :=
  InsertUsers (new_username user) (new_password user) callback.

Definition findUserByUsername (name : value)
    (callback : DbError + list UserRow -> Flow) : Flow :=
  SelectUsers name callback.

Section Controllers.
Context `{Libraries}.

Definition register (body : Credentials) (salt : string) : Flow :=
  findUserByUsername (username body) (fun found =>
    match found with
    | inl _ => Json 500 (message "Internal Server Error")
    | inr result =>
        if (0 <? length result)%nat then
          Json 400 (message "Username already exists")
        else
          match bcrypt_hashSync (password body) salt with
          | None => Throws
          | Some hashedPassword =>
              createUser {| new_username := username body;
                            new_password := hashedPassword |}
                (fun err =>
                   match err with
                   | Some _ => Json 500 (message "Internal Server Error")
                   | None => Json 201 (message "User registered successfully")
                   end)
          end
    end).

Definition login (body : Credentials) (now : Z) : Flow :=
  findUserByUsername (username body) (fun found =>
    match found with
    | inl _ => Json 500 (message "Internal Server Error")
    | inr [] => Json 400 (message "Invalid username or password")
    | inr (user :: _) =>
        match bcrypt_compareSync (password body) (row_password user) with
        | None => Throws
        | Some true =>
            Json 200 (VObj [("token", VStr (jwt_sign (row_id user) now))])
        | Some false => Json 400 (message "Invalid username or password")
        end
    end).

End Controllers.

(** What the storage connection reports for each statement. A
    controller issues each of the two statements at most once, so one
    answer per statement describes any database. *)
Record Database := {
  select_users : value -> DbError + list UserRow;
  insert_users : value -> string -> option DbError
}.

Inductive Statement : Type :=
| Selected (name : value)
| Inserted (name : value) (pass : string).

(** Running a controller against a database: the statements issued, in
    order, and the reply ([None] when an exception escaped). *)
Fixpoint play (db : Database) (f : Flow)
  : list Statement * option (Z * value) :=
  match f with
  | Json status body => ([], Some (status, body))
  | Throws => ([], None)
  | SelectUsers name callback =>
      let r := play db (callback (select_users db name)) in
      (Selected name :: r.1, r.2)
  | InsertUsers name pass callback =>
      let r := play db (callback (insert_users db name pass)) in
      (Inserted name pass :: r.1, r.2)
  end.

End Accounts.

Section AccountProperties.
Import Accounts.
Context `{Libraries} `{Runtime}.

Lemma play_register db body salt :
  play db (register body salt)
  = match select_users db (username body) with
    | inl _ =>
        ([Selected (username body)],
         Some (500, message "Internal Server Error"))
    | inr [] =>
        match bcrypt_hashSync (password body) salt with
        | None => ([Selected (username body)], None)
        | Some h =>
            ([Selected (username body); Inserted (username body) h],
             Some (match insert_users db (username body) h with
                   | Some _ => (500, message "Internal Server Error")
                   | None => (201, message "User registered successfully")
                   end))
        end
    | inr (_ :: _) =>
        ([Selected (username body)],
         Some (400, message "Username already exists"))
    end.
Proof.
  unfold register, findUserByUsername, createUser. simpl.
  destruct (select_users db (username body)) as [e|[|u rest]]; simpl;
    [done| |done].
  destruct (bcrypt_hashSync (password body) salt) as [h|]; simpl; [|done].
  by destruct (insert_users db (username body) h).
Qed.

Lemma play_login db body now :
  play db (login body now)
  = ([Selected (username body)],
     match select_users db (username body) with
     | inl _ => Some (500, message "Internal Server Error")
     | inr [] => Some (400, message "Invalid username or password")
     | inr (user :: _) =>
         match bcrypt_compareSync (password body) (row_password user) with
         | None => None
         | Some true =>
             Some (200,
                   VObj [("token", VStr (jwt_sign (row_id user) now))])
         | Some false => Some (400, message "Invalid username or password")
         end
     end).
Proof.
  unfold login, findUserByUsername. simpl.
  destruct (select_users db (username body)) as [e|[|u rest]]; simpl;
    [done|done|].
  by destruct (bcrypt_compareSync (password body) (row_password u))
    as [[|]|].
Qed.

(** X17. Registration writes a row only after the lookup succeeded and
    found no row under the name, and what it writes is the submitted
    name with the output of [bcrypt.hashSync] on the submitted password:
    on a lookup error or a taken name nothing is inserted. *)
Theorem register_inserts_only_when_free (db : Database)
    (body : Credentials) (salt : string) (name : value) (pass : string) :
  Inserted name pass ∈ (play db (register body salt)).1 →
  select_users db (username body) = inr []
  ∧ name = username body
  ∧ bcrypt_hashSync (password body) salt = Some pass.
Proof.
  rewrite play_register.
  destruct (select_users db (username body)) as [e|[|u rest]]; simpl.
  - intros Hin. apply list_elem_of_singleton in Hin. done.
  - destruct (bcrypt_hashSync (password body) salt) as [h|]; simpl.
    + intros [Hin|Hin]%elem_of_cons; [done|].
      apply list_elem_of_singleton in Hin. by injection Hin as -> ->.
    + intros Hin. apply list_elem_of_singleton in Hin. done.
  - intros Hin. apply list_elem_of_singleton in Hin. done.
Qed.

(** X18. Registration answers 201 exactly when the lookup found no row,
    hashing returned, and the storage accepted the insert of the hashed
    password. *)
Theorem register_created_iff (db : Database) (body : Credentials)
    (salt : string) :
  (play db (register body salt)).2
    = Some (201, message "User registered successfully")
  ↔ select_users db (username body) = inr []
    ∧ ∃ h, bcrypt_hashSync (password body) salt = Some h
           ∧ insert_users db (username body) h = None.
Proof.
  rewrite play_register.
  destruct (select_users db (username body)) as [e|[|u rest]]; simpl.
  - split; [done | by intros [? _]].
  - destruct (bcrypt_hashSync (password body) salt) as [h|]; simpl.
    + destruct (insert_users db (username body) h) as [e|] eqn:E.
      * split; [done|]. intros (_ & h' & [= <-] & ?). congruence.
      * split; [|done]. intros _. split; [done|]. by exists h.
    + split; [done | by intros (_ & h & ? & _)].
  - split; [done | by intros [? _]].
Qed.

(** X19. Login hands out a token only when the lookup returned a first
    row whose stored hash [bcrypt.compareSync] accepts for the submitted
    password; the token is signed for that row's id, and login issues no
    statement but the one lookup. *)
Theorem login_token_only_on_match (db : Database) (body : Credentials)
    (now : Z) (reply : value) :
  (play db (login body now)).2 = Some (200, reply) →
  (∃ user rest,
      select_users db (username body) = inr (user :: rest)
      ∧ bcrypt_compareSync (password body) (row_password user) = Some true
      ∧ reply = VObj [("token", VStr (jwt_sign (row_id user) now))])
  ∧ (play db (login body now)).1 = [Selected (username body)].
Proof.
  rewrite play_login. simpl. intros Hreply. split; [|done].
  destruct (select_users db (username body)) as [e|[|u rest]]; [done|done|].
  destruct (bcrypt_compareSync (password body) (row_password u))
    as [[|]|] eqn:E; [|done|done].
  injection Hreply as <-. by exists u, rest.
Qed.

(** X20. Login answers an unknown name and a wrong password alike: the
    same status and the same body. *)
Theorem login_failures_alike (db db' : Database) (body body' : Credentials)
    (now now' : Z) (user : UserRow) (rest : list UserRow) :
  select_users db (username body) = inr [] →
  select_users db' (username body') = inr (user :: rest) →
  bcrypt_compareSync (password body') (row_password user) = Some false →
  (play db (login body now)).2 = (play db' (login body' now')).2
  ∧ (play db (login body now)).2
    = Some (400, message "Invalid username or password").
Proof.
  intros Hnone Hsome Hwrong. rewrite !play_login. simpl.
  by rewrite Hnone, Hsome, Hwrong.
Qed.

(** X21. The token login hands out opens the monitoring routes for the
    row it was signed for: sent as [Bearer token] while [jwt.verify]
    accepts it, it makes the middleware set [req.user] to that id, and a
    page visit then opens that user's session. *)
Theorem login_token_authenticates (db : Database) (body : Credentials)
    (now later : Z) (user : UserRow) (rest : list UserRow) (st : Server) :
  select_users db (username body) = inr (user :: rest) →
  bcrypt_compareSync (password body) (row_password user) = Some true →
  let token := jwt_sign (row_id user) now in
  no_space token = true →
  jwt_verify token = Some {| id := row_id user |} →
  session_open st (row_id user) = false →
  let req := {| authorization := Some ("Bearer " +:+ token);
                route := PageVisit |} in
  (play db (login body now)).2 = Some (200, VObj [("token", VStr token)])
  ∧ authenticateToken req = Next {| id := row_id user |}
  ∧ userVisitTimes (handle req later st).1 !! row_id user
    = Some {| visitTime := later |}
  ∧ emitted (handle req later st).2 = [page_visit_record (row_id user) later].
Proof.
  intros Hrows Hmatch token Hsp Hverify Hclosed req.
  assert (Htok : token_of (authorization req) = Some token).
  { subst req. simpl authorization.
    change ("Bearer " +:+ token) with ("Bearer" +:+ String " " token).
    by apply (token_of_two_fields "Bearer" token). }
  assert (Hauth : authenticateToken req = Next {| id := row_id user |}).
  { unfold authenticateToken. by rewrite Htok, Hverify. }
  split; [|split; [done|]].
  - rewrite play_login. simpl. by rewrite Hrows, Hmatch.
  - unfold handle. rewrite Hauth. simpl route.
    rewrite (page_visit_fresh {| id := row_id user |} later st Hclosed).
    simpl. by rewrite lookup_insert_eq.
Qed.

(** X22. What registration stores is what login checks: once a
    registration has been answered 201, a login with the same body
    against a database whose lookup returns the registered row first
    gets a token for that row's id, provided [bcrypt.compareSync]
    accepts the hash [bcrypt.hashSync] produced. *)
Theorem register_then_login (db1 db2 : Database) (body : Credentials)
    (salt : string) (now : Z) (rid : Z) (rest : list UserRow) :
  (play db1 (register body salt)).2
    = Some (201, message "User registered successfully") →
  (∀ h, bcrypt_hashSync (password body) salt = Some h →
        bcrypt_compareSync (password body) (VStr h) = Some true
        ∧ select_users db2 (username body)
          = inr ({| row_id := rid; row_password := VStr h |} :: rest)) →
  ∃ h, (play db1 (register body salt)).1
       = [Selected (username body); Inserted (username body) h]
       ∧ (play db2 (login body now)).2
         = Some (200, VObj [("token", VStr (jwt_sign rid now))]).
Proof.
  rewrite play_register, play_login.
  destruct (select_users db1 (username body)) as [e|[|u rest1]]; simpl;
    [done| |done].
  destruct (bcrypt_hashSync (password body) salt) as [h|]; simpl; [|done].
  intros _ Hlater. destruct (Hlater h eq_refl) as [Hcmp Hrows].
  exists h. split; [done|]. rewrite Hrows. simpl. by rewrite Hcmp.
Qed.

End AccountProperties.

(** * Worked examples, continued *)

Module SampleAccounts.
Import Accounts.

(** A stand-in for bcrypt that keeps the salt and the password apart by
    a comma, and a signer whose tokens the sample verifier knows. *)
Definition toy_hash (s : value) (salt : string) : option string :=
  match s with
  | VStr p => Some ("bcrypt(" +:+ salt +:+ "," +:+ p +:+ ")")
  | _ => None
  end.

Definition toy_compare (s hash : value) : option bool :=
  match s, hash with
  | VStr p, VStr h =>
      match split "," h with
      | [_; tail] => Some (String.eqb tail (p +:+ ")"))
      | _ => Some false
      end
  | _, _ => None
  end.

#[export] Instance libraries : Libraries :=
  {| bcrypt_hashSync := toy_hash; bcrypt_compareSync := toy_compare;
     jwt_sign := fun i _ => "token-of-" +:+ Sample.show_Z i |}.

(** A database with no users that accepts inserts, and one that holds
    user 7 under the name [ada]. *)
Definition empty_db : Database :=
  {| select_users := fun _ => inr []; insert_users := fun _ _ => None |}.

Definition ada_row : UserRow :=
  {| row_id := 7; row_password := VStr "bcrypt(s4lt,correct horse)" |}.

Definition ada_db : Database :=
  {| select_users := fun name =>
       match name with
       | VStr n => if String.eqb n "ada" then inr [ada_row] else inr []
       | _ => inr []
       end;
     insert_users := fun _ _ => Some "ER_DUP_ENTRY" |}.

Definition ada : Credentials :=
  {| username := VStr "ada"; password := VStr "correct horse" |}.

Definition leave_by (token : string) : Request :=
  {| authorization := Some ("Bearer " +:+ token); route := PageLeave |}.

End SampleAccounts.

Section MoreExamples.
Import Sample SampleAccounts Relay Accounts.

Let u7 : User := {| id := 7 |}.

Lemma bearer_token_extracted_witness :
  token_of (Some "Basic dXNlcjpwYXNz") = Some "dXNlcjpwYXNz"
  ∧ token_of (Some "Bearer abc def") = Some "abc".
Proof.
  split.
  - apply (bearer_token_extracted "Basic" "dXNlcjpwYXNz" ""); reflexivity.
  - apply (bearer_token_extracted "Bearer" "abc" "def"); reflexivity.
Defined.

Lemma unauthorized_iff_no_second_field_witness :
  authenticateToken {| authorization := Some "Bearer"; route := PageLeave |}
  = Rejected (SendStatus 401)
  ∧ authenticateToken {| authorization := Some ""; route := PageLeave |}
    ≠ Rejected (SendStatus 401).
Proof.
  split.
  - apply (unauthorized_iff_no_second_field
             {| authorization := Some "Bearer"; route := PageLeave |}).
    right. exists "Bearer". split; [reflexivity|]. split; [discriminate|].
    reflexivity.
  - intros Hno.
    apply (unauthorized_iff_no_second_field
             {| authorization := Some ""; route := PageLeave |}) in Hno.
    destruct Hno as [Hno|(h & Hh & Hne & _)]; [discriminate|].
    injection Hh as <-. by apply Hne.
Defined.



Lemma only_authenticated_requests_act_witness :
  ∃ token user,
    token_of (authorization (visit_by "token-of-7")) = Some token
    ∧ jwt_verify token = Some user.
Proof.
  destruct (only_authenticated_requests_act (visit_by "token-of-7") 10 init)
    as (token & user & Htok & Hver & _).
  - right. discriminate.
  - by exists token, user.
Defined.

Lemma other_users_untouched_witness :
  userVisitTimes
    (server (run [Arrive 1 (visit_by "token-of-9") 10;
                  Arrive 2 (visit_by "forged") 11;
                  Complete 1 None] boot)) !! 7 = None.
Proof.
  assert (Hall : Forall (by_other 7)
            [Arrive 1 (visit_by "token-of-9") 10;
             Arrive 2 (visit_by "forged") 11; Complete 1 None]).
  { repeat apply Forall_cons_2; [discriminate|discriminate|exact I|].
    apply Forall_nil_2. }
  destruct (other_users_untouched 7 _ boot Hall) as (-> & _ & _).
  reflexivity.
Defined.

Lemma session_persists_until_leave_witness :
  userVisitTimes
    (server (run [Arrive 2 (visit_by "token-of-7") 20;
                  Arrive 3 (leave_by "token-of-9") 30;
                  Complete 1 None]
               (step boot (Arrive 1 (visit_by "token-of-7") 10)))) !! 7
  = Some {| visitTime := 10 |}.
Proof.
  assert (Hall : Forall (fun ev => ¬ leave_of 7 ev)
            [Arrive 2 (visit_by "token-of-7") 20;
             Arrive 3 (leave_by "token-of-9") 30; Complete 1 None]).
  { repeat apply Forall_cons_2; [| |by intros []|apply Forall_nil_2].
    - intros [_ Hroute]. discriminate Hroute.
    - intros [Hp _]. discriminate Hp. }
  apply (session_persists_until_leave 7 {| visitTime := 10 |} _
           (step boot (Arrive 1 (visit_by "token-of-7") 10)) Hall);
    reflexivity.
Defined.

Lemma session_opens_only_by_visit_witness :
  session_open
    (server (run [Arrive 1 (leave_by "token-of-7") 10;
                  Arrive 2 (visit_by "token-of-9") 20] boot)) 7 = false.
Proof.
  assert (Hall : Forall (fun ev => ¬ visit_of 7 ev)
            [Arrive 1 (leave_by "token-of-7") 10;
             Arrive 2 (visit_by "token-of-9") 20]).
  { repeat apply Forall_cons_2; [| |apply Forall_nil_2].
    - intros [_ Hroute]. discriminate Hroute.
    - intros [Hp _]. discriminate Hp. }
  apply (session_opens_only_by_visit 7 _ boot Hall); reflexivity.
Defined.

Lemma visit_then_leave_restores_state_witness :
  (page_leave u7 5999 (page_visit u7 1000 init).1).1 = init.
Proof.
  apply (visit_then_leave_restores_state u7 1000 5999 init); reflexivity.
Defined.

Lemma time_spent_from_first_visit_witness :
  emitted
    (page_leave u7 9000
       (page_visit u7 5000 (page_visit u7 1000 init).1).1).2
  = [page_leave_record 7 9000 ((9000 - 1000) / 1000)].
Proof.
  apply (time_spent_from_first_visit u7 1000 5000 9000 init). reflexivity.
Defined.

Lemma time_spent_sign_witness :
  ∃ n, emitted (page_leave u7 999 (page_visit u7 1000 init).1).2
       = [page_leave_record 7 999 n]
       ∧ (n ≤ -1)%Z.
Proof.
  destruct (time_spent_sign u7 999 1000 (page_visit u7 1000 init).1 eq_refl)
    as (n & He & _ & Hneg).
  exists n. split; [exact He|]. apply Hneg. reflexivity.
Defined.

Lemma failed_leave_loses_visit_time_witness :
  let L := step boot (Arrive 1 (visit_by "token-of-7") 1000) in
  let L1 := run [Arrive 2 (leave_by "token-of-7") 5999;
                 Complete 2 (Some "ER_LOCK_DEADLOCK")] L in
  let L2 := step L1 (Arrive 3 (leave_by "token-of-7") 7000) in
  stored L1 = []
  ∧ userVisitTimes (server L1) !! 7 = None
  ∧ sink L2 = (sink L1 ++ [page_leave_record 7 7000 0])%list.
Proof.
  intros L L1 L2.
  assert (Hauth : authenticateToken (leave_by "token-of-7") = Next u7)
    by reflexivity.
  assert (Htime : userVisitTimes (server L) !! id u7
                  = Some {| visitTime := 1000 |}) by reflexivity.
  assert (Hfresh : take_flight 2 (in_flight L) = None) by reflexivity.
  destruct (failed_leave_loses_visit_time L 2 3
              (leave_by "token-of-7") (leave_by "token-of-7") u7
              1000 5999 7000 "ER_LOCK_DEADLOCK"
              Hauth eq_refl Hauth eq_refl Htime Hfresh)
    as (_ & _ & Hstored & Hgone & _ & Hsink).
  split; [exact Hstored|]. split; [exact Hgone | exact Hsink].
Defined.

Lemma stamp_forgets_date_witness :
  toLocaleTimeString (1730502123456 + 86400000 * 3)
  = toLocaleTimeString 1730502123456.
Proof. apply (stamp_forgets_date 1730502123456 3). reflexivity. Defined.

Lemma relay_ignores_other_events_witness :
  on_message {[ "a"; "b" ]} "a" "chat" (VStr "hello") = [].
Proof.
  apply (relay_ignores_other_events {[ "a"; "b" ]} "a" "chat" (VStr "hello"));
    discriminate.
Defined.

Lemma relay_two_party_witness :
  on_message {[ "a"; "b" ]} "a" "answer" (VStr "sdp")
  = [{| recipient := "b"; event := "answer"; payload := VStr "sdp" |}].
Proof.
  assert (Hab : "a" ≠ "b") by discriminate.
  exact (proj1 (relay_two_party Answer "a" "b" (VStr "sdp") Hab)).
Defined.

Lemma relay_skips_disconnected_witness :
  {| recipient := "c"; event := "ice-candidate";
     payload := VStr "candidate" |}
    ∈ on_message (on_disconnect "b" {[ "a"; "b"; "c" ]}) "a"
        "ice-candidate" (VStr "candidate")
  ∧ {| recipient := "b"; event := "ice-candidate";
       payload := VStr "candidate" |}
    ∉ on_message (on_disconnect "b" {[ "a"; "b"; "c" ]}) "a"
        "ice-candidate" (VStr "candidate").
Proof.
  destruct (relay_skips_disconnected IceCandidate {[ "a"; "b"; "c" ]}
              "a" "b" (VStr "candidate")) as [Hnot Hserved].
  split.
  - apply Hserved; [|discriminate|discriminate].
    apply elem_of_union_r, elem_of_singleton. reflexivity.
  - intros Hin. by apply (Hnot _ Hin).
Defined.

Lemma register_inserts_only_when_free_witness :
  select_users empty_db (username ada) = inr []
  ∧ bcrypt_hashSync (password ada) "s4lt"
    = Some "bcrypt(s4lt,correct horse)".
Proof.
  destruct (register_inserts_only_when_free empty_db ada "s4lt"
              (VStr "ada") "bcrypt(s4lt,correct horse)")
    as (Hfree & _ & Hhash).
  - apply list_elem_of_further, list_elem_of_here.
  - split; [exact Hfree | exact Hhash].
Defined.

Lemma register_created_iff_witness :
  (play empty_db (register ada "s4lt")).2
  = Some (201, message "User registered successfully")
  ∧ (play ada_db (register ada "s4lt")).2
    ≠ Some (201, message "User registered successfully").
Proof.
  split.
  - apply (register_created_iff empty_db ada "s4lt").
    split; [reflexivity|].
    exists "bcrypt(s4lt,correct horse)". split; reflexivity.
  - intros Hcreated.
    apply (register_created_iff ada_db ada "s4lt") in Hcreated.
    destruct Hcreated as [Hfree _]. discriminate Hfree.
Defined.

Lemma login_token_only_on_match_witness :
  (play ada_db (login ada 10)).1 = [Selected (VStr "ada")].
Proof.
  apply (login_token_only_on_match ada_db ada 10
           (VObj [("token", VStr "token-of-7")])).
  reflexivity.
Defined.

Lemma login_failures_alike_witness :
  (play ada_db (login {| username := VStr "eve"; password := VStr "x" |} 10)).2
  = (play ada_db
       (login {| username := VStr "ada"; password := VStr "guess" |} 20)).2.
Proof.
  apply (login_failures_alike ada_db ada_db
           {| username := VStr "eve"; password := VStr "x" |}
           {| username := VStr "ada"; password := VStr "guess" |}
           10 20 ada_row []); reflexivity.
Defined.

Lemma login_token_authenticates_witness :
  (play ada_db (login ada 10)).2
  = Some (200, VObj [("token", VStr "token-of-7")])
  ∧ userVisitTimes (handle (visit_by "token-of-7") 50 init).1 !! 7
    = Some {| visitTime := 50 |}.
Proof.
  assert (Hmatch : bcrypt_compareSync (password ada) (row_password ada_row)
                   = Some true) by reflexivity.
  assert (Hsp : no_space (jwt_sign (row_id ada_row) 10) = true)
    by reflexivity.
  assert (Hver : jwt_verify (jwt_sign (row_id ada_row) 10)
                 = Some {| id := row_id ada_row |}) by reflexivity.
  assert (Hclosed : session_open init (row_id ada_row) = false)
    by reflexivity.
  destruct (login_token_authenticates ada_db ada 10 50 ada_row [] init
              eq_refl Hmatch Hsp Hver Hclosed)
    as (Hreply & _ & Htime & _).
  split; [exact Hreply | exact Htime].
Defined.

Lemma register_then_login_witness :
  ∃ h, (play empty_db (register ada "s4lt")).1
       = [Selected (VStr "ada"); Inserted (VStr "ada") h]
       ∧ (play ada_db (login ada 10)).2
         = Some (200, VObj [("token", VStr "token-of-7")]).
Proof.
  destruct (register_then_login empty_db ada_db ada "s4lt" 10 7 [])
    as (h & Hlog & Hreply).
  - reflexivity.
  - intros h [= <-]. split; reflexivity.
  - exists h. split; [exact Hlog | exact Hreply].
Defined.

End MoreExamples.
